(** * NB video downloader front end: the API client and the UI controller

    A shallow embedding of the API communication module (class [VideoAPI])
    and of [app.js] (class [VideoDownloadApp]).

    Data model.
    - A JavaScript string is a [list ascii]: a sequence of code units, here
      restricted to the code units below 256.  Literals are written
      [str "..."].
    - A DOM element is represented by the attributes the controller reads or
      writes: the [hidden] class of a section is a [bool], the quality
      buttons are a list of records carrying their [dataset] and their
      [selected] class.
    - A network call is an explicit effect: every call of [makeRequest]
      appends the request to the [network] trace of the state, and its
      outcome is given by a [Backend], a function from requests to fetch
      outcomes.  Handlers run to completion (one task at a time), so an
      [async] handler is a function from state to state.
    - Of [AnimationManager] the loading state of a button and the style
      elements are represented; transitions and animations only touch
      [style] and are not. *)

From Stdlib Require Import List Ascii String ZArith Lia Bool Arith.
From Stdlib Require Import DecimalString.
From Stdlib Require Import Floats.SpecFloat.
Import ListNotations.

(* ------------------------------------------------------------------ *)
(** ** JavaScript strings *)

Module JS.

Definition jsstring := list ascii.

Definition str (s : string) : jsstring := list_ascii_of_string s.

Definition code (c : ascii) : N := N_of_ascii c.

(** [WhiteSpace] and [LineTerminator] code units below 256: TAB, LF, VT,
    FF, CR, SP, NBSP. *)
Definition is_whitespace (c : ascii) : bool :=
  let n := code c in
  ((9 <=? n) && (n <=? 13) || (n =? 32) || (n =? 160))%N.

Fixpoint drop_while (p : ascii -> bool) (s : jsstring) : jsstring :=
  match s with
  | [] => []
  | c :: s' => if p c then drop_while p s' else s
  end.

Fixpoint take_while (p : ascii -> bool) (s : jsstring) : jsstring :=
  match s with
  | [] => []
  | c :: s' => if p c then c :: take_while p s' else []
  end.

Definition trimStart (s : jsstring) : jsstring := drop_while is_whitespace s.

Definition trimEnd (s : jsstring) : jsstring :=
  rev (drop_while is_whitespace (rev s)).

(** [String.prototype.trim] *)
Definition trim (s : jsstring) : jsstring := trimEnd (trimStart s).

Definition ascii_eqb (a b : ascii) : bool := Ascii.eqb a b.

(** [strip_prefix p s] is [Some rest] when [s = p ++ rest]. *)
Fixpoint strip_prefix (p s : jsstring) : option jsstring :=
  match p with
  | [] => Some s
  | a :: p' =>
      match s with
      | [] => None
      | c :: s' => if ascii_eqb a c then strip_prefix p' s' else None
      end
  end.

Definition startsWith (s p : jsstring) : bool :=
  match strip_prefix p s with Some _ => true | None => false end.

(** [String.prototype.includes] *)
Fixpoint includes (s sub : jsstring) : bool :=
  startsWith s sub ||
  match s with
  | [] => false
  | _ :: s' => includes s' sub
  end.

(** Truthiness of a value that is a string, [null] or [undefined]. *)
Definition truthy (o : option jsstring) : bool :=
  match o with
  | Some (_ :: _) => true
  | _ => false
  end.

(** [o || d] for such a value. *)
Definition or_default (o : option jsstring) (d : jsstring) : jsstring :=
  match o with
  | Some (c :: s) => c :: s
  | _ => d
  end.

(** Template-literal and [encodeURIComponent] conversion of a value that may
    be [undefined]. *)
Definition to_string (o : option jsstring) : jsstring :=
  match o with
  | Some s => s
  | None => str "undefined"
  end.

(** Decimal digits of an integer, as [Number.prototype.toString] prints an
    integral Number below 1e21. *)
Definition Z_to_string (z : Z) : jsstring :=
  str (NilZero.string_of_int (Z.to_int z)).

Definition is_upper (c : ascii) : bool := ((65 <=? code c) && (code c <=? 90))%N.
Definition is_lower (c : ascii) : bool := ((97 <=? code c) && (code c <=? 122))%N.
Definition is_digit (c : ascii) : bool := ((48 <=? code c) && (code c <=? 57))%N.

Definition hex_digit (n : N) : ascii :=
  if (n <? 10)%N then ascii_of_N (48 + n) else ascii_of_N (55 + n).

Definition percent (b : N) : jsstring :=
  [ "%"%char; hex_digit (b / 16); hex_digit (b mod 16) ].

(** Characters [encodeURIComponent] leaves alone. *)
Definition is_uri_unreserved (c : ascii) : bool :=
  is_upper c || is_lower c || is_digit c ||
  existsb (ascii_eqb c) (str "-_.!~*'()").

(** [encodeURIComponent] on code units below 256: a code unit from 128 on is
    a two-byte UTF-8 sequence. *)
Definition encodeURIComponent (s : jsstring) : jsstring :=
  flat_map
    (fun c =>
       if is_uri_unreserved c then [c]
       else if (code c <? 128)%N then percent (code c)
       else percent (192 + code c / 64) ++ percent (128 + code c mod 64))
    s.

End JS.

Import JS.

(* ------------------------------------------------------------------ *)
(** ** The regular expressions of [VideoAPI]

    Every regular expression literal of the client has the shape
    [^? atom ... atom class+]: an optional start anchor, a sequence of
    literals, single-character classes and optional literals, and a final
    one-or-more repetition of a class (captured as group 1 in the patterns of
    [extractVideoID]).  The matcher below is the backtracking matcher of the
    language restricted to that shape: an optional literal is tried first
    and given up when the rest fails; the final repetition is greedy, and
    since nothing follows it no shorter run is ever tried. *)

Module Regex.

Inductive atom : Type :=
| Lit (s : jsstring)            (* literal text *)
| Cls (p : ascii -> bool)       (* one character of a class, as [[?&]] *)
| Opt (s : jsstring).           (* [(s)?] or [c?] *)

Record regex : Type := mkRegex {
  anchored : bool;              (* leading [^] *)
  atoms : list atom;
  final : ascii -> bool         (* class of the trailing [class+] *)
}.

(** A match starting exactly at the head of [s]; the result is the text of
    the trailing repetition. *)
Fixpoint match_here (l : list atom) (cls : ascii -> bool) (s : jsstring)
  : option jsstring :=
  match l with
  | [] =>
      match take_while cls s with
      | [] => None
      | run => Some run
      end
  | Lit p :: l' =>
      match strip_prefix p s with
      | Some s' => match_here l' cls s'
      | None => None
      end
  | Cls p :: l' =>
      match s with
      | c :: s' => if p c then match_here l' cls s' else None
      | [] => None
      end
  | Opt p :: l' =>
      match strip_prefix p s with
      | Some s' =>
          match match_here l' cls s' with
          | Some g => Some g
          | None => match_here l' cls s
          end
      | None => match_here l' cls s
      end
  end.

(** The leftmost match at any position. *)
Fixpoint search (l : list atom) (cls : ascii -> bool) (s : jsstring)
  : option jsstring :=
  match match_here l cls s with
  | Some g => Some g
  | None =>
      match s with
      | [] => None
      | _ :: s' => search l cls s'
      end
  end.

Definition exec (r : regex) (s : jsstring) : option jsstring :=
  if anchored r then match_here (atoms r) (final r) s
  else search (atoms r) (final r) s.

(** [RegExp.prototype.test] *)
Definition test (r : regex) (s : jsstring) : bool :=
  match exec r s with Some _ => true | None => false end.

(** [\w] *)
Definition word (c : ascii) : bool :=
  is_upper c || is_lower c || is_digit c || ascii_eqb c "_"%char.

(** [[\w-]] *)
Definition word_or_hyphen (c : ascii) : bool := word c || ascii_eqb c "-"%char.

(** [[^x]] *)
Definition not_char (x : ascii) (c : ascii) : bool := negb (ascii_eqb c x).

(** [[?&]] *)
Definition query_sep (c : ascii) : bool :=
  ascii_eqb c "?"%char || ascii_eqb c "&"%char.

(** The texts a sequence of atoms can consume: the language of the atoms,
    against which the matcher is proved sound and complete below. *)
Inductive consumes : list atom -> jsstring -> Prop :=
| consumes_nil : consumes [] []
| consumes_lit p l s : consumes l s -> consumes (Lit p :: l) (p ++ s)
| consumes_cls (p : ascii -> bool) c l s :
    p c = true -> consumes l s -> consumes (Cls p :: l) (c :: s)
| consumes_opt p l s : consumes l s -> consumes (Opt p :: l) (p ++ s)
| consumes_skip p l s : consumes l s -> consumes (Opt p :: l) s.

End Regex.

(* ------------------------------------------------------------------ *)
(** ** IEEE 754 binary64 and [toFixed] *)

Module Number.

Definition prec : Z := 53.
Definition emax : Z := 1024.

(** 2^52, 2^53 and 2^54: a normal mantissa lies in [[two52, two53)], and the
    integers up to [two53] are Numbers. *)
Definition two52 : Z := 4503599627370496.
Definition two53 : Z := 9007199254740992.
Definition two54 : Z := 18014398509481984.

(** The Number nearest to an integer (exact up to 2^53). *)
Definition of_Z (z : Z) : spec_float :=
  binary_normalize prec emax z 0 false.

(** Number division, round to nearest even. *)
Definition div (x y : spec_float) : spec_float := SFdiv prec emax x y.

(** For a finite value [m * 2^e >= 0], the integer [n] for which
    [n / 10 - m * 2^e] is as close to zero as possible, the larger one when
    there are two. *)
Definition nearest_tenths (m : positive) (e : Z) : Z :=
  if (0 <=? e)%Z then 10 * Z.pos m * 2 ^ e
  else (20 * Z.pos m + 2 ^ (- e)) / 2 ^ (1 - e).

Definition fixed1_digits (n : Z) : jsstring :=
  Z_to_string (n / 10) ++ str "." ++ Z_to_string (n mod 10).

(** [Number.prototype.toFixed(1)] for the values below 1e21. *)
Definition toFixed1 (x : spec_float) : jsstring :=
  match x with
  | S754_nan => str "NaN"
  | S754_infinity s => if s then str "-Infinity" else str "Infinity"
  | S754_zero _ => str "0.0"
  | S754_finite s m e =>
      (if s then str "-" else []) ++ fixed1_digits (nearest_tenths m e)
  end.

End Number.

(* ------------------------------------------------------------------ *)
(** ** [class VideoAPI] *)

Module VideoAPI.

Import Regex.

(** An [Error] object; [message] may be missing or empty. *)
Record Error : Type := mkError { message : option jsstring }.

Inductive Method : Type := GET | POST.

(** The object given to [JSON.stringify] as request body. *)
Inductive Body : Type :=
| NoBody
| PreviewBody (url : jsstring)
| DownloadBody (url : jsstring) (quality : option jsstring)
               (format_id : option jsstring).

Record Request : Type := mkRequest {
  req_url : jsstring;
  req_method : Method;
  req_body : Body
}.

(** What [fetch] and [response.json()] do for a request. *)
Inductive FetchOutcome (A : Type) : Type :=
| Ok (body : A)                                   (* [response.ok], parsed body *)
| HttpError (status : Z) (statusText : jsstring)
            (detail : option jsstring)            (* [!response.ok] *)
| Aborted                                         (* the timeout fired *)
| Failed (e : Error).                             (* any other rejection *)

Arguments Ok {A} body.
Arguments HttpError {A} status statusText detail.
Arguments Aborted {A}.
Arguments Failed {A} e.

(** A settled promise: rejected with an error or fulfilled with a value. *)
Inductive Settled (A : Type) : Type :=
| Rejected (e : Error)
| Fulfilled (a : A).

Arguments Rejected {A} e.
Arguments Fulfilled {A} a.

Record Format : Type := mkFormat {
  quality : jsstring;
  format_id : jsstring;
  filesize_formatted : jsstring
}.

Record VideoInfo : Type := mkVideoInfo {
  title : jsstring;
  uploader : jsstring;
  duration_formatted : jsstring;
  view_count : Z;
  like_count : Z;
  thumbnail : jsstring;
  formats : list Format
}.

Record DownloadResponse : Type := mkDownloadResponse {
  success : bool;
  filename : option jsstring;
  resp_message : option jsstring
}.

Record t : Type := mkVideoAPI { baseURL : jsstring }.

Definition new : t :=
  mkVideoAPI (str "https://nb-video-downloader-backend-production.up.railway.app/").

Definition endpoint_preview : jsstring := str "/preview".
Definition endpoint_download : jsstring := str "/download".
Definition endpoint_health : jsstring := str "/health".

(** [url.replace(/\/$/, '')] *)
Definition setBackendURL (url : jsstring) : t :=
  mkVideoAPI
    match rev url with
    | c :: r => if ascii_eqb c "/"%char then rev r else url
    | [] => url
    end.

Definition request (api : t) (endpoint : jsstring) (m : Method) (b : Body)
  : Request :=
  mkRequest (baseURL api ++ endpoint) m b.

(** [makeRequest]: the promise it returns, given what the fetch did. *)
Definition makeRequest {A : Type} (outcome : FetchOutcome A) : Settled A :=
  match outcome with
  | Ok body => Fulfilled body
  | HttpError status statusText detail =>
      Rejected
        (mkError
           (Some (or_default detail
                    (str "HTTP " ++ Z_to_string status ++ str ": " ++ statusText))))
  | Aborted => Rejected (mkError (Some (str "Request timeout - please try again")))
  | Failed e => Rejected e
  end.

Definition getVideoPreview_request (api : t) (url : jsstring) : Request :=
  request api endpoint_preview POST (PreviewBody (trim url)).

Definition downloadVideo_request (api : t) (url : jsstring)
  (quality formatId : option jsstring) : Request :=
  request api endpoint_download POST (DownloadBody (trim url) quality formatId).

Definition checkHealth_request (api : t) : Request :=
  request api endpoint_health GET NoBody.

Definition getDownloadURL (api : t) (filename : option jsstring) : jsstring :=
  baseURL api ++ str "/downloads/" ++ encodeURIComponent (to_string filename).

Definition scheme : list atom := [Lit (str "http"); Opt (str "s"); Lit (str "://")].

(** The four [patterns] of [validateYouTubeURL]. *)
Definition patterns : list regex :=
  [ mkRegex true
      (scheme ++ [Opt (str "www."); Lit (str "youtube.com/watch?v=")])
      word_or_hyphen;
    mkRegex true
      (scheme ++ [Lit (str "youtu.be/")])
      word_or_hyphen;
    mkRegex true
      (scheme ++ [Opt (str "www."); Lit (str "youtube.com/embed/")])
      word_or_hyphen;
    mkRegex true
      (scheme ++ [Opt (str "www."); Lit (str "youtube.com/v/")])
      word_or_hyphen ].

Definition validateYouTubeURL (url : jsstring) : bool :=
  match url with
  | [] => false
  | _ => existsb (fun pattern => test pattern (trim url)) patterns
  end.

(** The patterns of [extractVideoID], in the order they are tried. *)
Definition watchRe : regex :=
  mkRegex false [Cls query_sep; Lit (str "v=")] (not_char "&"%char).
Definition shortRe : regex :=
  mkRegex false [Lit (str "youtu.be/")] (not_char "?"%char).
Definition embedRe : regex :=
  mkRegex false [Lit (str "embed/")] (not_char "?"%char).
Definition vRe : regex :=
  mkRegex false [Lit (str "/v/")] (not_char "?"%char).

Definition extractVideoID (url : jsstring) : option jsstring :=
  if negb (validateYouTubeURL url) then None
  else
    let trimmedUrl := trim url in
    match exec watchRe trimmedUrl with
    | Some id => Some id
    | None =>
        match exec shortRe trimmedUrl with
        | Some id => Some id
        | None =>
            match exec embedRe trimmedUrl with
            | Some id => Some id
            | None =>
                match exec vRe trimmedUrl with
                | Some id => Some id
                | None => None
                end
            end
        end
    end.

(** [formatNumber] on an integral Number. *)
Definition formatNumber (num : Z) : jsstring :=
  if (1000000000 <=? num)%Z then
    Number.toFixed1 (Number.div (Number.of_Z num) (Number.of_Z 1000000000)) ++ str "B"
  else if (1000000 <=? num)%Z then
    Number.toFixed1 (Number.div (Number.of_Z num) (Number.of_Z 1000000)) ++ str "M"
  else if (1000 <=? num)%Z then
    Number.toFixed1 (Number.div (Number.of_Z num) (Number.of_Z 1000)) ++ str "K"
  else Z_to_string num.

Definition handleError (error : Error) : jsstring :=
  let message := or_default (message error) (str "An unknown error occurred") in
  if includes message (str "timeout") then
    str "Request timed out. Please check your connection and try again."
  else if includes message (str "fetch") then
    str "Unable to connect to the server. Please check your internet connection."
  else if includes message (str "Invalid YouTube URL") then
    str "Please enter a valid YouTube video URL."
  else if includes message (str "Video unavailable") then
    str "This video is not available for download. It may be private, deleted, or restricted."
  else if includes message (str "Age restricted") then
    str "This video is age-restricted and cannot be downloaded."
  else if includes message (str "Copyright") then
    str "This video is protected by copyright and cannot be downloaded."
  else if includes message (str "HTTP 429") then
    str "Too many requests. Please wait a moment before trying again."
  else if includes message (str "HTTP 500") then
    str "Server error. Please try again later."
  else if includes message (str "HTTP 400") then
    str "Invalid request. Please check the video URL and try again."
  else str "Error: " ++ message.

End VideoAPI.

(* ------------------------------------------------------------------ *)
(** ** [class VideoDownloadApp] *)

Module VideoDownloadApp.

Import VideoAPI.

(** A [.quality-btn] element: its [dataset] and whether its class list
    holds [selected]. *)
Record Button : Type := mkButton {
  data_quality : jsstring;
  data_formatId : jsstring;
  data_filesize : jsstring;
  selected : bool
}.

(** For each section, whether its class list holds [hidden]. *)
Record Sections : Type := mkSections {
  loadingSection : bool;
  previewSection : bool;
  errorSection : bool;
  successSection : bool;
  downloadSection : bool
}.

(** [this.elements], with what the controller reads and writes of each. *)
Record Elements : Type := mkElements {
  videoUrl : jsstring;                 (* [value] *)
  sections : Sections;
  qualityButtons : list Button;        (* children, in document order *)
  downloadBtn_disabled : bool;
  downloadLink_href : jsstring;
  downloadLink_download : jsstring;
  videoThumbnail_src : jsstring;
  videoThumbnail_alt : jsstring;
  videoTitle : jsstring;               (* [textContent], as the following *)
  videoUploader : jsstring;
  videoDuration : jsstring;
  videoViews : jsstring;
  videoLikes : jsstring;
  selectedQualitySpan : jsstring;
  fileSizeSpan : jsstring;
  errorMessage : jsstring
}.

Record State : Type := mkState {
  currentVideoInfo : option VideoInfo;
  selectedQuality : option jsstring;
  selectedFormatId : option jsstring;
  elements : Elements;
  network : list Request               (* the requests issued so far *)
}.

(** What the server does with a request. *)
Record Backend : Type := mkBackend {
  on_preview : Request -> FetchOutcome VideoInfo;
  on_download : Request -> FetchOutcome DownloadResponse
}.

(** *** Field updates *)

Definition with_elements (f : Elements -> Elements) (st : State) : State :=
  mkState (currentVideoInfo st) (selectedQuality st) (selectedFormatId st)
    (f (elements st)) (network st).

Definition set_sections (s : Sections) (e : Elements) : Elements :=
  mkElements (videoUrl e) s (qualityButtons e) (downloadBtn_disabled e)
    (downloadLink_href e) (downloadLink_download e) (videoThumbnail_src e)
    (videoThumbnail_alt e) (videoTitle e) (videoUploader e) (videoDuration e)
    (videoViews e) (videoLikes e) (selectedQualitySpan e) (fileSizeSpan e)
    (errorMessage e).

Definition set_videoUrl (v : jsstring) (e : Elements) : Elements :=
  mkElements v (sections e) (qualityButtons e) (downloadBtn_disabled e)
    (downloadLink_href e) (downloadLink_download e) (videoThumbnail_src e)
    (videoThumbnail_alt e) (videoTitle e) (videoUploader e) (videoDuration e)
    (videoViews e) (videoLikes e) (selectedQualitySpan e) (fileSizeSpan e)
    (errorMessage e).

Definition set_qualityButtons (l : list Button) (e : Elements) : Elements :=
  mkElements (videoUrl e) (sections e) l (downloadBtn_disabled e)
    (downloadLink_href e) (downloadLink_download e) (videoThumbnail_src e)
    (videoThumbnail_alt e) (videoTitle e) (videoUploader e) (videoDuration e)
    (videoViews e) (videoLikes e) (selectedQualitySpan e) (fileSizeSpan e)
    (errorMessage e).

Definition set_downloadBtn_disabled (b : bool) (e : Elements) : Elements :=
  mkElements (videoUrl e) (sections e) (qualityButtons e) b
    (downloadLink_href e) (downloadLink_download e) (videoThumbnail_src e)
    (videoThumbnail_alt e) (videoTitle e) (videoUploader e) (videoDuration e)
    (videoViews e) (videoLikes e) (selectedQualitySpan e) (fileSizeSpan e)
    (errorMessage e).

Definition set_downloadLink (href download : jsstring) (e : Elements) : Elements :=
  mkElements (videoUrl e) (sections e) (qualityButtons e) (downloadBtn_disabled e)
    href download (videoThumbnail_src e)
    (videoThumbnail_alt e) (videoTitle e) (videoUploader e) (videoDuration e)
    (videoViews e) (videoLikes e) (selectedQualitySpan e) (fileSizeSpan e)
    (errorMessage e).

Definition set_videoDetails (src alt title by_ duration views likes : jsstring)
  (e : Elements) : Elements :=
  mkElements (videoUrl e) (sections e) (qualityButtons e) (downloadBtn_disabled e)
    (downloadLink_href e) (downloadLink_download e) src alt title by_ duration
    views likes (selectedQualitySpan e) (fileSizeSpan e) (errorMessage e).

Definition set_selectedSpans (q size : jsstring) (e : Elements) : Elements :=
  mkElements (videoUrl e) (sections e) (qualityButtons e) (downloadBtn_disabled e)
    (downloadLink_href e) (downloadLink_download e) (videoThumbnail_src e)
    (videoThumbnail_alt e) (videoTitle e) (videoUploader e) (videoDuration e)
    (videoViews e) (videoLikes e) q size (errorMessage e).

Definition set_errorMessage (m : jsstring) (e : Elements) : Elements :=
  mkElements (videoUrl e) (sections e) (qualityButtons e) (downloadBtn_disabled e)
    (downloadLink_href e) (downloadLink_download e) (videoThumbnail_src e)
    (videoThumbnail_alt e) (videoTitle e) (videoUploader e) (videoDuration e)
    (videoViews e) (videoLikes e) (selectedQualitySpan e) (fileSizeSpan e) m.

Definition set_currentVideoInfo (v : option VideoInfo) (st : State) : State :=
  mkState v (selectedQuality st) (selectedFormatId st) (elements st) (network st).

Definition set_selection (q f : option jsstring) (st : State) : State :=
  mkState (currentVideoInfo st) q f (elements st) (network st).

(** The effect of a call of [makeRequest] on the trace. *)
Definition issue (r : Request) (st : State) : State :=
  mkState (currentVideoInfo st) (selectedQuality st) (selectedFormatId st)
    (elements st) (network st ++ [r]).

(** User input in the URL field. *)
Definition type_url (v : jsstring) (st : State) : State :=
  with_elements (set_videoUrl v) st.

(** *** Sections *)

Definition hideAllSections (st : State) : State :=
  with_elements (set_sections (mkSections true true true true true)) st.

Definition showLoading (st : State) : State :=
  let st := hideAllSections st in
  let s := sections (elements st) in
  with_elements
    (set_sections
       (mkSections false (previewSection s) (errorSection s)
          (successSection s) (downloadSection s))) st.

Definition showPreview (st : State) : State :=
  let st := hideAllSections st in
  let s := sections (elements st) in
  with_elements
    (set_sections
       (mkSections (loadingSection s) false (errorSection s)
          (successSection s) (downloadSection s))) st.

Definition showDownloadSection (st : State) : State :=
  let s := sections (elements st) in
  with_elements
    (set_sections
       (mkSections (loadingSection s) (previewSection s) (errorSection s)
          (successSection s) false)) st.

Definition showError (message : jsstring) (st : State) : State :=
  let st := hideAllSections st in
  let st := with_elements (set_errorMessage message) st in
  let s := sections (elements st) in
  with_elements
    (set_sections
       (mkSections (loadingSection s) (previewSection s) false
          (successSection s) (downloadSection s))) st.

Definition hideError (st : State) : State :=
  let s := sections (elements st) in
  with_elements
    (set_sections
       (mkSections (loadingSection s) (previewSection s) true
          (successSection s) (downloadSection s))) st.

Definition showUrlSection (st : State) : State := hideAllSections st.

Section WithAPI.

Variable api : VideoAPI.t.
Variable backend : Backend.

Definition showSuccess (response : DownloadResponse) (st : State) : State :=
  let st := hideAllSections st in
  let downloadURL := getDownloadURL api (filename response) in
  let st :=
    with_elements (set_downloadLink downloadURL (to_string (filename response))) st in
  let s := sections (elements st) in
  with_elements
    (set_sections
       (mkSections (loadingSection s) (previewSection s) (errorSection s)
          false (downloadSection s))) st.

(** *** Quality selection *)

Definition remove_selected (b : Button) : Button :=
  mkButton (data_quality b) (data_formatId b) (data_filesize b) false.

Definition add_selected (b : Button) : Button :=
  mkButton (data_quality b) (data_formatId b) (data_filesize b) true.

(** [f] applied to the [i]-th element. *)
Fixpoint update_nth {A : Type} (i : nat) (f : A -> A) (l : list A) : list A :=
  match l, i with
  | [], _ => []
  | x :: l', O => f x :: l'
  | x :: l', S i' => x :: update_nth i' f l'
  end.

(** [querySelector('.quality-btn.selected')] *)
Definition selected_button (st : State) : option Button :=
  find selected (qualityButtons (elements st)).

Definition updateDownloadSection (st : State) : State :=
  match selected_button st with
  | Some selectedButton =>
      with_elements
        (set_selectedSpans
           (str "Quality: " ++ data_quality selectedButton)
           (str "Size: " ++ data_filesize selectedButton)) st
  | None => st
  end.

(** [handleQualitySelection(button)], the button being the [i]-th child of
    the container.  The handler is only ever called on a child of the
    container; for an index past the end the state is returned as it is.
    [animateQualitySelection(button, true)] adds the [selected] class the
    handler has just added, and animates. *)
Definition handleQualitySelection (i : nat) (st : State) : State :=
  match nth_error (qualityButtons (elements st)) i with
  | None => st
  | Some button =>
      let allButtons := map remove_selected (qualityButtons (elements st)) in
      let st := with_elements
                  (set_qualityButtons (update_nth i add_selected allButtons)) st in
      let st := set_selection (Some (data_quality button))
                  (Some (data_formatId button)) st in
      let st := updateDownloadSection st in
      showDownloadSection st
  end.

Definition button_of_format (format : Format) : Button :=
  mkButton (quality format) (format_id format) (filesize_formatted format) false.

Definition generateQualityButtons (formats : list Format) (st : State) : State :=
  let st := with_elements (set_qualityButtons (map button_of_format formats)) st in
  match qualityButtons (elements st) with
  | [] => st
  | _ :: _ => handleQualitySelection 0 st
  end.

Definition displayVideoPreview (videoInfo : VideoInfo) (st : State) : State :=
  let st :=
    with_elements
      (set_videoDetails
         (thumbnail videoInfo)
         (title videoInfo)
         (title videoInfo)
         (str "By " ++ uploader videoInfo)
         (duration_formatted videoInfo)
         (formatNumber (view_count videoInfo) ++ str " views")
         (formatNumber (like_count videoInfo) ++ str " likes")) st in
  generateQualityButtons (formats videoInfo) st.

(** *** Preview *)

Definition checkAPIHealth (st : State) : State :=
  issue (checkHealth_request api) st.

Definition getVideoPreview (url : jsstring) (st : State) : State :=
  let st := showLoading st in
  let req := getVideoPreview_request api url in
  let st := issue req st in
  match makeRequest (on_preview backend req) with
  | Fulfilled videoInfo =>
      let st := set_currentVideoInfo (Some videoInfo) st in
      let st := displayVideoPreview videoInfo st in
      showPreview st
  | Rejected error =>
      let errorMessage := handleError error in
      showError errorMessage st
  end.

Definition handlePreviewClick (st : State) : State :=
  let url := trim (videoUrl (elements st)) in
  match url with
  | [] => showError (str "Please enter a YouTube video URL") st
  | _ :: _ =>
      if negb (validateYouTubeURL url) then
        showError (str "Please enter a valid YouTube video URL") st
      else getVideoPreview url st
  end.

(** *** Download *)

Definition addLoadingState (st : State) : State :=
  with_elements (set_downloadBtn_disabled true) st.

Definition removeLoadingState (st : State) : State :=
  with_elements (set_downloadBtn_disabled false) st.

Definition downloadVideo (st : State) : State :=
  let st := addLoadingState st in
  let req :=
    downloadVideo_request api (videoUrl (elements st))
      (selectedQuality st) (selectedFormatId st) in
  let st := issue req st in
  let st :=
    match makeRequest (on_download backend req) with
    | Fulfilled response =>
        if success response then showSuccess response st
        else showError (or_default (resp_message response) (str "Download failed")) st
    | Rejected error =>
        let errorMessage := handleError error in
        showError errorMessage st
    end in
  removeLoadingState st.

Definition handleDownloadClick (st : State) : State :=
  match currentVideoInfo st with
  | None => showError (str "Please select a video quality first") st
  | Some _ =>
      if negb (truthy (selectedQuality st)) then
        showError (str "Please select a video quality first") st
      else downloadVideo st
  end.

Definition handleRetryClick (st : State) : State :=
  showUrlSection (hideError st).

Definition reset (st : State) : State :=
  let st := set_currentVideoInfo None st in
  let st := set_selection None None st in
  let st := type_url [] st in
  hideAllSections st.

(** The promise [getVideoPreview(url)] awaits. *)
Definition preview_promise (url : jsstring) : Settled VideoInfo :=
  makeRequest (on_preview backend (getVideoPreview_request api url)).

(** The promise [downloadVideo()] awaits in state [st]. *)
Definition download_promise (st : State) : Settled DownloadResponse :=
  makeRequest
    (on_download backend
       (downloadVideo_request api (videoUrl (elements st))
          (selectedQuality st) (selectedFormatId st))).

End WithAPI.

(** *** The regions and the state they stand for *)

Inductive Region : Type :=
| LoadingRegion | PreviewRegion | ErrorRegion | SuccessRegion | DownloadRegion.

Definition hidden (st : State) (r : Region) : bool :=
  let s := sections (elements st) in
  match r with
  | LoadingRegion => loadingSection s
  | PreviewRegion => previewSection s
  | ErrorRegion => errorSection s
  | SuccessRegion => successSection s
  | DownloadRegion => downloadSection s
  end.

Definition regions : list Region :=
  [LoadingRegion; PreviewRegion; ErrorRegion; SuccessRegion; DownloadRegion].

Definition visible_regions (st : State) : list Region :=
  filter (fun r => negb (hidden st r)) regions.

Inductive UIState : Type :=
| Idle
| Loading
| PreviewShown
| DownloadReady
| Error (message : jsstring)
| Success (downloadFilename : jsstring).

(** The state of the controller, read off the visible regions. *)
Definition ui_state (st : State) : option UIState :=
  match visible_regions st with
  | [] => Some Idle
  | [LoadingRegion] => Some Loading
  | [PreviewRegion] => Some PreviewShown
  | [PreviewRegion; DownloadRegion] => Some DownloadReady
  | [ErrorRegion] => Some (Error (errorMessage (elements st)))
  | [SuccessRegion] => Some (Success (downloadLink_download (elements st)))
  | _ => None
  end.

(** How many buttons carry the [selected] class. *)
Definition selected_count (st : State) : nat :=
  List.length (filter selected (qualityButtons (elements st))).

End VideoDownloadApp.

(* ------------------------------------------------------------------ *)
(** ** The recognized URL shapes, in the words of the specification

    [http(s)://[www.]youtube.com/watch?v=<id>], [http(s)://youtu.be/<id>],
    [http(s)://[www.]youtube.com/embed/<id>] and
    [http(s)://[www.]youtube.com/v/<id>], an id being one or more letters,
    digits, underscores and hyphens; anything may follow the id. *)

Module Shapes.

Definition schemes : list jsstring := [str "http"; str "https"].

Definition sites : list jsstring := [str "youtube.com"; str "www.youtube.com"].

Definition is_id (id : jsstring) : Prop :=
  id <> [] /\ forallb Regex.word_or_hyphen id = true.

Inductive recognized : jsstring -> Prop :=
| watch_form (scheme site id rest : jsstring) :
    In scheme schemes -> In site sites -> is_id id ->
    recognized (scheme ++ str "://" ++ site ++ str "/watch?v=" ++ id ++ rest)
| short_form (scheme id rest : jsstring) :
    In scheme schemes -> is_id id ->
    recognized (scheme ++ str "://youtu.be/" ++ id ++ rest)
| embed_form (scheme site id rest : jsstring) :
    In scheme schemes -> In site sites -> is_id id ->
    recognized (scheme ++ str "://" ++ site ++ str "/embed/" ++ id ++ rest)
| v_form (scheme site id rest : jsstring) :
    In scheme schemes -> In site sites -> is_id id ->
    recognized (scheme ++ str "://" ++ site ++ str "/v/" ++ id ++ rest).

(** Group 1 of the first pattern of a list that matches. *)
Fixpoint first_capture (rs : list Regex.regex) (s : jsstring)
  : option jsstring :=
  match rs with
  | [] => None
  | r :: rs' =>
      match Regex.exec r s with
      | Some g => Some g
      | None => first_capture rs' s
      end
  end.

End Shapes.

(* ------------------------------------------------------------------ *)
(** ** Sample data: a page and three servers *)

Module Sample.

Import VideoAPI VideoDownloadApp.

Definition f1 : Format := mkFormat (str "1080p") (str "f1") (str "50MB").
Definition f2 : Format := mkFormat (str "720p") (str "f2") (str "30MB").

Definition info : VideoInfo :=
  mkVideoInfo (str "Never Gonna Give You Up") (str "Rick Astley") (str "3:33")
    1500 2300000 (str "https://i.ytimg.com/vi/dQw4w9WgXcQ/hq.jpg") [f1; f2].

(** The page as loaded: nothing typed, every section hidden. *)
Definition page : State :=
  mkState None None None
    (mkElements [] (mkSections true true true true true) [] false
       [] [] [] [] [] [] [] [] [] [] [] [])
    [].

(** A server that answers every request. *)
Definition server_up : Backend :=
  mkBackend
    (fun _ => Ok info)
    (fun _ => Ok (mkDownloadResponse true (Some (str "video 1.mp4")) None)).

(** A server that refuses: the preview is rejected with status 500, the
    download is answered with [success: false]. *)
Definition server_refusing : Backend :=
  mkBackend
    (fun _ => HttpError 500 (str "Internal Server Error") None)
    (fun _ => Ok (mkDownloadResponse false None (Some (str "Video unavailable")))).

(** A server that cannot be reached. *)
Definition server_down : Backend :=
  mkBackend
    (fun _ => Failed (mkError (Some (str "Failed to fetch"))))
    (fun _ => Aborted).

Definition url1 : jsstring := str "https://youtu.be/dQw4w9WgXcQ".
Definition url2 : jsstring := str "https://www.youtube.com/watch?v=abc123&t=5".

(** The page after a preview of [url1] from [server_up]. *)
Definition previewed : State :=
  handlePreviewClick VideoAPI.new server_up (type_url url1 page).

End Sample.

(* ------------------------------------------------------------------ *)
(** ** [class AnimationManager]: loading state of a button, style sheets

    Of the document only the elements that carry an id are represented, in
    document order; of a button its [disabled] flag, its [innerHTML] and the
    [data-original-text] attribute.  The transitions and animations write
    [style] properties only and are not represented. *)

Module AnimationManager.

Fixpoint str_eqb (a b : jsstring) : bool :=
  match a, b with
  | [], [] => true
  | x :: a', y :: b' => ascii_eqb x y && str_eqb a' b'
  | _, _ => false
  end.

Record Element : Type := mkElement {
  id : jsstring;
  textContent : jsstring
}.

Definition Document : Type := list Element.

Definition getElementById (doc : Document) (i : jsstring) : option Element :=
  find (fun e => str_eqb (id e) i) doc.

Record ButtonElement : Type := mkButtonElement {
  disabled : bool;
  innerHTML : jsstring;
  originalText : option jsstring        (* [dataset.originalText] *)
}.

Definition dquote : ascii := ascii_of_N 34.

Definition spinner_styles : jsstring := str "
            .button-spinner {
                display: flex;
                align-items: center;
                justify-content: center;
            }
            
            .spinner-ring {
                width: 20px;
                height: 20px;
                border: 2px solid transparent;
                border-top: 2px solid currentColor;
                border-radius: 50%;
                animation: buttonSpin 1s linear infinite;
            }
            
            @keyframes buttonSpin {
                0% { transform: rotate(0deg); }
                100% { transform: rotate(360deg); }
            }
        ".


(** The markup of the spinner [div] once appended to the button. *)
Definition spinner_html : jsstring :=
  str "<div class=" ++ [dquote] ++ str "button-spinner" ++ [dquote] ++ str ">" ++
  str "
            <div class=" ++ [dquote] ++ str "spinner-ring" ++ [dquote] ++
  str "></div>
        " ++ str "</div>".

Definition appendStyle (i text : jsstring) (doc : Document) : Document :=
  doc ++ [mkElement i text].

Definition addSpinnerStyles (doc : Document) : Document :=
  match getElementById doc (str "spinner-styles") with
  | Some _ => doc
  | None => appendStyle (str "spinner-styles") spinner_styles doc
  end.



(** [addLoadingState(button, originalText)]; [None] is a missing button. *)
Definition addLoadingState (button : option ButtonElement)
  (originalText : jsstring) (doc : Document)
  : option ButtonElement * Document :=
  match button with
  | None => (None, doc)
  | Some _ =>
      (Some (mkButtonElement true spinner_html (Some originalText)),
       addSpinnerStyles doc)
  end.

Definition removeLoadingState (button : option ButtonElement)
  : option ButtonElement :=
  match button with
  | None => None
  | Some b =>
      let originalText := or_default (originalText b) (str "Button") in
      Some (mkButtonElement false originalText None)
  end.

(** The two calls of [downloadVideo] around the request: the text saved is
    the [innerHTML] of the button at that moment. *)
Definition loading_round (button : ButtonElement) (doc : Document)
  : option ButtonElement * Document :=
  let originalText := innerHTML button in
  let '(loading, doc') := addLoadingState (Some button) originalText doc in
  (removeLoadingState loading, doc').

End AnimationManager.

(* ------------------------------------------------------------------ *)
(** ** [VideoDownloadApp.handlePaste]

    The markup of the page is not part of the sources, so what the URL
    field holds after [value = text] (an [input] removes line breaks, a
    [textarea] does not) is a parameter. *)

Module Paste.

Import VideoAPI VideoDownloadApp.

Section WithField.

Variable api : VideoAPI.t.
Variable backend : Backend.
Variable value_after_set : jsstring -> jsstring.

(** [handlePaste], given what [navigator.clipboard.readText()] settles to:
    [None] when access is denied or not supported. *)
Definition handlePaste (clipboard : option jsstring) (st : State) : State :=
  match clipboard with
  | Some text =>
      if validateYouTubeURL text then
        handlePreviewClick api backend (type_url (value_after_set text) st)
      else st
  | None => st
  end.

End WithField.

End Paste.

(* ------------------------------------------------------------------ *)
(** ** Reading an encoded URI component back

    [encode_char] is the encoding of one code unit, as in
    [encodeURIComponent]; [decode_head] reads one encoded code unit off the
    front of a string.  It serves to show that the encoding loses nothing. *)

Module Uri.

Definition encode_char (c : ascii) : jsstring :=
  if is_uri_unreserved c then [c]
  else if (code c <? 128)%N then percent (code c)
  else percent (192 + code c / 64) ++ percent (128 + code c mod 64).

Definition hex_val (c : ascii) : option N :=
  if is_digit c then Some (code c - 48)%N
  else if ((65 <=? code c) && (code c <=? 70))%N then Some (code c - 55)%N
  else None.

Definition byte_of (h l : ascii) : option N :=
  match hex_val h, hex_val l with
  | Some a, Some b => Some (16 * a + b)%N
  | _, _ => None
  end.

Definition decode_head (s : jsstring) : option (ascii * jsstring) :=
  match s with
  | [] => None
  | c :: r =>
      if ascii_eqb c "%"%char then
        match r with
        | h :: l :: r' =>
            match byte_of h l with
            | Some b =>
                if (b <? 128)%N then Some (ascii_of_N b, r')
                else
                  match r' with
                  | p :: h2 :: l2 :: r'' =>
                      if ascii_eqb p "%"%char then
                        match byte_of h2 l2 with
                        | Some b2 =>
                            Some (ascii_of_N ((b - 192) * 64 + (b2 - 128)), r'')
                        | None => None
                        end
                      else None
                  | _ => None
                  end
            | None => None
            end
        | _ => None
        end
      else Some (c, r)
  end.

(** The characters an encoded component is made of. *)
Definition uri_safe (c : ascii) : bool :=
  is_uri_unreserved c || ascii_eqb c "%"%char.

End Uri.

(* ------------------------------------------------------------------ *)
(** ** Sessions: the events of [bindEvents] and [addKeyboardShortcuts]

    An event is delivered to the handler registered for it.  A quality
    button receives a click only when it exists and is displayed; the markup
    is not part of the sources, and the buttons are taken to lie in the
    preview section, so they are displayed when that section is. *)

Module Session.

Import VideoAPI VideoDownloadApp.

Inductive Event : Type :=
| TypeUrl (v : jsstring)        (* input in the URL field *)
| ClickPreview                  (* click on the preview button, or Enter *)
| PickQuality (i : nat)         (* click on the [i]-th quality button *)
| ClickDownload
| ClickRetry
| PressEscape.                  (* [reset] *)

Definition deliverable (st : State) (ev : Event) : bool :=
  match ev with
  | PickQuality i =>
      negb (hidden st PreviewRegion) &&
      (i <? List.length (qualityButtons (elements st)))%nat
  | _ => true
  end.

Definition handle (api : VideoAPI.t) (backend : Backend) (ev : Event)
  (st : State) : State :=
  match ev with
  | TypeUrl v => type_url v st
  | ClickPreview => handlePreviewClick api backend st
  | PickQuality i => handleQualitySelection i st
  | ClickDownload => handleDownloadClick api backend st
  | ClickRetry => handleRetryClick st
  | PressEscape => reset st
  end.

(** A session: events in order, each with what the server does at that
    time; [None] when an event could not have been delivered. *)
Fixpoint run (api : VideoAPI.t) (events : list (Backend * Event)) (st : State)
  : option State :=
  match events with
  | [] => Some st
  | (backend, ev) :: rest =>
      if deliverable st ev then run api rest (handle api backend ev st)
      else None
  end.


End Session.

(* ------------------------------------------------------------------ *)
(** ** Strings: facts *)

Section StringFacts.

Lemma drop_while_snoc (p : ascii -> bool) (l : jsstring) (c : ascii) :
  drop_while p (l ++ [c]) =
  if forallb p l then (if p c then [] else [c]) else drop_while p l ++ [c].
Proof.
  induction l as [|a l IH]; simpl.
  - reflexivity.
  - destruct (p a); simpl; [exact IH | reflexivity].
Qed.

Lemma drop_while_all (p : ascii -> bool) (l : jsstring) :
  forallb p l = true -> drop_while p l = [].
Proof.
  induction l as [|a l IH]; simpl; [reflexivity|].
  destruct (p a); simpl; [exact IH | discriminate].
Qed.

Lemma drop_while_nil_all (p : ascii -> bool) (l : jsstring) :
  drop_while p l = [] -> forallb p l = true.
Proof.
  induction l as [|a l IH]; simpl; [reflexivity|].
  destruct (p a); simpl; [exact IH | discriminate].
Qed.

(** [trimEnd] by recursion from the left. *)
Lemma trimEnd_cons (c : ascii) (s : jsstring) :
  trimEnd (c :: s) =
  match trimEnd s with
  | [] => if is_whitespace c then [] else [c]
  | t => c :: t
  end.
Proof.
  unfold trimEnd. simpl rev.
  rewrite drop_while_snoc.
  destruct (forallb is_whitespace (rev s)) eqn:Hall.
  - rewrite (drop_while_all _ _ Hall). simpl.
    destruct (is_whitespace c); reflexivity.
  - rewrite rev_app_distr. simpl.
    destruct (rev (drop_while is_whitespace (rev s))) eqn:E; [|reflexivity].
    apply (f_equal (@rev ascii)) in E. rewrite rev_involutive in E. simpl in E.
    apply drop_while_nil_all in E. congruence.
Qed.

Lemma trimEnd_nil : trimEnd [] = [].
Proof. reflexivity. Qed.

Lemma trimEnd_idem (s : jsstring) : trimEnd (trimEnd s) = trimEnd s.
Proof.
  induction s as [|c s IH].
  - reflexivity.
  - rewrite trimEnd_cons.
    destruct (trimEnd s) as [|a t] eqn:E.
    + destruct (is_whitespace c) eqn:W; [reflexivity|].
      rewrite trimEnd_cons, trimEnd_nil, W. reflexivity.
    + rewrite trimEnd_cons, IH. reflexivity.
Qed.

(** Trimming the end keeps the first character when it is not white. *)
Lemma trimEnd_head (c : ascii) (s : jsstring) :
  is_whitespace c = false -> exists t, trimEnd (c :: s) = c :: t.
Proof.
  intros W. rewrite trimEnd_cons, W.
  destruct (trimEnd s) as [|a t]; eauto.
Qed.

Lemma trimStart_head (s : jsstring) :
  match trimStart s with
  | [] => True
  | c :: _ => is_whitespace c = false
  end.
Proof.
  unfold trimStart.
  induction s as [|c s IH]; simpl; [exact I|].
  destruct (is_whitespace c) eqn:W; [exact IH | exact W].
Qed.

Lemma trimStart_fixed (c : ascii) (s : jsstring) :
  is_whitespace c = false -> trimStart (c :: s) = c :: s.
Proof. intros W. unfold trimStart. simpl. rewrite W. reflexivity. Qed.

Lemma trim_idem (s : jsstring) : trim (trim s) = trim s.
Proof.
  unfold trim.
  pose proof (trimStart_head s) as H.
  destruct (trimStart s) as [|c u] eqn:E.
  - reflexivity.
  - destruct (trimEnd_head c u H) as [t Ht].
    rewrite Ht, trimStart_fixed by exact H.
    rewrite <- Ht. apply trimEnd_idem.
Qed.

Lemma trim_nil : trim [] = [].
Proof. reflexivity. Qed.

End StringFacts.

(* ------------------------------------------------------------------ *)
(** ** The controller: facts about sections and requests *)

Section ControllerFacts.

Import VideoAPI VideoDownloadApp.

Variable api : VideoAPI.t.
Variable backend : Backend.

Lemma showError_spec (m : jsstring) (st : State) :
  visible_regions (showError m st) = [ErrorRegion] /\
  errorMessage (elements (showError m st)) = m /\
  ui_state (showError m st) = Some (Error m) /\
  network (showError m st) = network st /\
  currentVideoInfo (showError m st) = currentVideoInfo st /\
  selectedQuality (showError m st) = selectedQuality st /\
  selectedFormatId (showError m st) = selectedFormatId st.
Proof. repeat split. Qed.

Lemma showSuccess_spec (r : DownloadResponse) (st : State) :
  visible_regions (showSuccess api r st) = [SuccessRegion] /\
  ui_state (showSuccess api r st) = Some (Success (to_string (filename r))) /\
  downloadLink_href (elements (showSuccess api r st)) =
    getDownloadURL api (filename r).
Proof. repeat split. Qed.

Lemma removeLoadingState_frame (st : State) :
  visible_regions (removeLoadingState st) = visible_regions st /\
  ui_state (removeLoadingState st) = ui_state st /\
  errorMessage (elements (removeLoadingState st)) = errorMessage (elements st) /\
  network (removeLoadingState st) = network st.
Proof. repeat split. Qed.

(** The validation of the controller agrees with the client's on the raw
    field content. *)
Lemma validate_trim (v : jsstring) :
  trim v <> [] -> validateYouTubeURL (trim v) = validateYouTubeURL v.
Proof.
  intros H. unfold validateYouTubeURL.
  rewrite trim_idem.
  destruct (trim v) eqn:E; [congruence|].
  destruct v; [discriminate E | reflexivity].
Qed.

Lemma validate_nil_trim (v : jsstring) :
  trim v = [] -> validateYouTubeURL v = false.
Proof.
  intros H. unfold validateYouTubeURL. rewrite H.
  destruct v; reflexivity.
Qed.

End ControllerFacts.

(* ------------------------------------------------------------------ *)
(** ** The controller: claims *)

Section ControllerClaims.

Import VideoAPI VideoDownloadApp.

(** C2.  After a download response that reports success the state is
    Success and the success region is the only visible one; after a failed
    one (a response with [success: false], or a rejected request) the state
    is Error and the error region is the only visible one.  Loading, preview
    and download options carry the hidden flag in every case. *)
Theorem download_response_regions (api : VideoAPI.t) (backend : Backend)
  (st : State) :
  let st' := downloadVideo api backend st in
  (forall r, download_promise api backend st = Fulfilled r ->
     success r = true ->
     ui_state st' = Some (Success (to_string (filename r))) /\
     visible_regions st' = [SuccessRegion] /\
     hidden st' LoadingRegion = true /\ hidden st' PreviewRegion = true /\
     hidden st' DownloadRegion = true /\ hidden st' ErrorRegion = true) /\
  (forall r, download_promise api backend st = Fulfilled r ->
     success r = false ->
     ui_state st' =
       Some (Error (or_default (resp_message r) (str "Download failed"))) /\
     visible_regions st' = [ErrorRegion] /\
     hidden st' LoadingRegion = true /\ hidden st' PreviewRegion = true /\
     hidden st' DownloadRegion = true /\ hidden st' SuccessRegion = true) /\
  (forall e, download_promise api backend st = Rejected e ->
     ui_state st' = Some (Error (handleError e)) /\
     visible_regions st' = [ErrorRegion] /\
     hidden st' LoadingRegion = true /\ hidden st' PreviewRegion = true /\
     hidden st' DownloadRegion = true /\ hidden st' SuccessRegion = true).
Proof.
  cbv zeta. unfold download_promise, downloadVideo.
  cbn [addLoadingState with_elements elements set_downloadBtn_disabled videoUrl
       selectedQuality selectedFormatId].
  split; [|split].
  - intros r Hr Hs. rewrite Hr, Hs. repeat split.
  - intros r Hr Hs. rewrite Hr, Hs. repeat split.
  - intros e He. rewrite He. repeat split.
Qed.

Lemma download_response_regions_witness :
  ui_state (downloadVideo VideoAPI.new Sample.server_up Sample.previewed) =
    Some (Success (str "video 1.mp4")) /\
  ui_state (downloadVideo VideoAPI.new Sample.server_refusing Sample.previewed) =
    Some (Error (str "Video unavailable")) /\
  ui_state (downloadVideo VideoAPI.new Sample.server_down Sample.previewed) =
    Some (Error (str "Request timed out. Please check your connection and try again.")).
Proof.
  split; [|split].
  - exact (proj1 (proj1 (download_response_regions VideoAPI.new
                           Sample.server_up Sample.previewed)
                    _ eq_refl eq_refl)).
  - exact (proj1 (proj1 (proj2 (download_response_regions VideoAPI.new
                                  Sample.server_refusing Sample.previewed))
                    _ eq_refl eq_refl)).
  - exact (proj1 (proj2 (proj2 (download_response_regions VideoAPI.new
                                  Sample.server_down Sample.previewed))
                    _ eq_refl)).
Defined.

(** C4.  A preview submission whose URL field is empty or fails the URL
    validation issues no request, and the controller ends in the Error state
    with one of the two validation messages. *)
Theorem invalid_url_rejected_locally (api : VideoAPI.t) (backend : Backend)
  (st : State) :
  videoUrl (elements st) = [] \/
  validateYouTubeURL (videoUrl (elements st)) = false ->
  let st' := handlePreviewClick api backend st in
  network st' = network st /\
  visible_regions st' = [ErrorRegion] /\
  (ui_state st' = Some (Error (str "Please enter a YouTube video URL")) \/
   ui_state st' = Some (Error (str "Please enter a valid YouTube video URL"))).
Proof.
  intros H st'. subst st'.
  assert (Hv : validateYouTubeURL (videoUrl (elements st)) = false).
  { destruct H as [H|H]; [rewrite H; reflexivity | exact H]. }
  clear H. unfold handlePreviewClick.
  destruct (trim (videoUrl (elements st))) as [|c u] eqn:E.
  - repeat split. left. reflexivity.
  - rewrite <- E, validate_trim, Hv by (rewrite E; discriminate).
    repeat split. right. reflexivity.
Qed.

Lemma invalid_url_rejected_locally_witness :
  network (handlePreviewClick VideoAPI.new Sample.server_up
             (type_url (str "https://vimeo.com/123") Sample.page)) = [] /\
  network (handlePreviewClick VideoAPI.new Sample.server_up Sample.page) = [].
Proof.
  split.
  - exact (proj1 (invalid_url_rejected_locally VideoAPI.new Sample.server_up
                    (type_url (str "https://vimeo.com/123") Sample.page)
                    (or_intror eq_refl))).
  - exact (proj1 (invalid_url_rejected_locally VideoAPI.new Sample.server_up
                    Sample.page (or_introl eq_refl))).
Defined.



(** C7.  A download confirmed while no preview is stored or no quality is
    selected is rejected with "Please select a video quality first", and no
    request is issued. *)
Theorem download_without_selection (api : VideoAPI.t) (backend : Backend)
  (st : State) :
  currentVideoInfo st = None \/ truthy (selectedQuality st) = false ->
  let st' := handleDownloadClick api backend st in
  st' = showError (str "Please select a video quality first") st /\
  errorMessage (elements st') = str "Please select a video quality first" /\
  ui_state st' = Some (Error (str "Please select a video quality first")) /\
  network st' = network st.
Proof.
  intros H st'.
  assert (E : st' = showError (str "Please select a video quality first") st).
  { subst st'. unfold handleDownloadClick.
    destruct (currentVideoInfo st) as [v|]; [|reflexivity].
    destruct H as [H|H]; [discriminate H|]. rewrite H. reflexivity. }
  rewrite E. repeat split.
Qed.

Lemma download_without_selection_witness :
  network (handleDownloadClick VideoAPI.new Sample.server_up Sample.page) = [] /\
  errorMessage
    (elements
       (handleDownloadClick VideoAPI.new Sample.server_up
          (set_selection None None Sample.previewed))) =
    str "Please select a video quality first".
Proof.
  split.
  - exact (proj2 (proj2 (proj2 (download_without_selection VideoAPI.new
                                  Sample.server_up Sample.page
                                  (or_introl eq_refl))))).
  - exact (proj1 (proj2 (download_without_selection VideoAPI.new
                           Sample.server_up
                           (set_selection None None Sample.previewed)
                           (or_intror eq_refl)))).
Defined.

End ControllerClaims.

(* ------------------------------------------------------------------ *)
(** ** Quality selection *)

Section SelectionFacts.

Import VideoAPI VideoDownloadApp.

Lemma filter_selected_cleared (l : list Button) :
  filter selected (map remove_selected l) = [].
Proof. induction l as [|b l IH]; simpl; [reflexivity | exact IH]. Qed.

Lemma find_selected_cleared (l : list Button) :
  find selected (map remove_selected l) = None.
Proof. induction l as [|b l IH]; simpl; [reflexivity | exact IH]. Qed.

Lemma filter_selected_marked (l : list Button) :
  forall i b, nth_error l i = Some b ->
  filter selected (update_nth i add_selected (map remove_selected l)) =
    [add_selected b].
Proof.
  induction l as [|a l IH]; intros [|i] b H; simpl in H; try discriminate.
  - injection H as ->. simpl. rewrite filter_selected_cleared. reflexivity.
  - simpl. exact (IH i b H).
Qed.

Lemma find_selected_marked (l : list Button) :
  forall i b, nth_error l i = Some b ->
  find selected (update_nth i add_selected (map remove_selected l)) =
    Some (add_selected b).
Proof.
  induction l as [|a l IH]; intros [|i] b H; simpl in H; try discriminate.
  - injection H as ->. reflexivity.
  - simpl. exact (IH i b H).
Qed.

Lemma nth_error_marked (l : list Button) :
  forall i b, nth_error l i = Some b ->
  nth_error (update_nth i add_selected (map remove_selected l)) i =
    Some (add_selected b).
Proof.
  induction l as [|a l IH]; intros [|i] b H; simpl in H; try discriminate.
  - injection H as ->. reflexivity.
  - simpl. exact (IH i b H).
Qed.

(** Every other button is left without the class. *)
Lemma nth_error_unmarked (l : list Button) :
  forall i j b, i <> j -> nth_error l j = Some b ->
  nth_error (update_nth i add_selected (map remove_selected l)) j =
    Some (remove_selected b).
Proof.
  induction l as [|a l IH]; intros i [|j] b Hij H; simpl in H; try discriminate.
  - injection H as ->. destruct i; [congruence | reflexivity].
  - destruct i as [|i]; simpl.
    + rewrite nth_error_map, H. reflexivity.
    + apply IH; [congruence | exact H].
Qed.

Lemma remove_selected_twice (l : list Button) :
  map remove_selected (map remove_selected l) = map remove_selected l.
Proof.
  induction l as [|b l IH]; simpl; [reflexivity | now rewrite IH].
Qed.

Lemma remark_cleared (l : list Button) (i : nat) :
  map remove_selected (update_nth i add_selected (map remove_selected l)) =
  map remove_selected l.
Proof.
  revert i. induction l as [|a l IH]; intros [|i]; simpl; try reflexivity.
  - rewrite remove_selected_twice. reflexivity.
  - rewrite IH. reflexivity.
Qed.

Lemma handleQualitySelection_unfold (st : State) (i : nat) (b : Button) :
  nth_error (qualityButtons (elements st)) i = Some b ->
  handleQualitySelection i st =
  let e := elements st in
  let s := sections e in
  mkState (currentVideoInfo st)
    (Some (data_quality b)) (Some (data_formatId b))
    (mkElements (videoUrl e)
       (mkSections (loadingSection s) (previewSection s) (errorSection s)
          (successSection s) false)
       (update_nth i add_selected (map remove_selected (qualityButtons e)))
       (downloadBtn_disabled e) (downloadLink_href e) (downloadLink_download e)
       (videoThumbnail_src e) (videoThumbnail_alt e) (videoTitle e)
       (videoUploader e) (videoDuration e) (videoViews e) (videoLikes e)
       (str "Quality: " ++ data_quality b) (str "Size: " ++ data_filesize b)
       (errorMessage e))
    (network st).
Proof.
  intros H. unfold handleQualitySelection. rewrite H.
  unfold updateDownloadSection, selected_button.
  cbn [with_elements set_selection elements set_qualityButtons qualityButtons].
  rewrite (find_selected_marked _ _ _ H). reflexivity.
Qed.

End SelectionFacts.

Section SelectionClaims.

Import VideoAPI VideoDownloadApp.

(** C6.  Selecting one of the rendered buttons leaves exactly one button
    with the [selected] class, the chosen one, and every other button
    without it; [selectedQuality] and [selectedFormatId] are those of the
    chosen button and the download options are shown.  Selecting the same
    button again changes nothing at all. *)
Theorem selection_unique_idempotent (st : State) (i : nat) (b : Button) :
  nth_error (qualityButtons (elements st)) i = Some b ->
  let st' := handleQualitySelection i st in
  selected_count st' = 1 /\
  nth_error (qualityButtons (elements st')) i = Some (add_selected b) /\
  (forall j c, j <> i -> nth_error (qualityButtons (elements st)) j = Some c ->
     nth_error (qualityButtons (elements st')) j = Some (remove_selected c)) /\
  selectedQuality st' = Some (data_quality b) /\
  selectedFormatId st' = Some (data_formatId b) /\
  hidden st' DownloadRegion = false /\
  handleQualitySelection i st' = st'.
Proof.
  intros H st'.
  assert (E := handleQualitySelection_unfold st i b H). fold st' in E.
  cbv zeta in E.
  assert (N : nth_error (qualityButtons (elements st')) i = Some (add_selected b)).
  { rewrite E. cbn [elements qualityButtons]. apply nth_error_marked, H. }
  split; [|split; [|split; [|split; [|split; [|split]]]]].
  - unfold selected_count. rewrite E. cbn [elements qualityButtons].
    rewrite (filter_selected_marked _ _ _ H). reflexivity.
  - exact N.
  - intros j c Hj Hc. rewrite E. cbn [elements qualityButtons].
    apply nth_error_unmarked; [congruence | exact Hc].
  - rewrite E. reflexivity.
  - rewrite E. reflexivity.
  - rewrite E. reflexivity.
  - rewrite (handleQualitySelection_unfold st' i _ N). cbv zeta.
    rewrite E at 1 2 3 4 5 6 7 8 9 10 11 12 13 14 15 16 17 18 19.
    cbn [elements qualityButtons sections currentVideoInfo network videoUrl
         loadingSection previewSection errorSection successSection
         downloadBtn_disabled downloadLink_href downloadLink_download
         videoThumbnail_src videoThumbnail_alt videoTitle videoUploader
         videoDuration videoViews videoLikes errorMessage
         add_selected data_quality data_formatId data_filesize].
    rewrite remark_cleared. symmetry. exact E.
Qed.

Lemma selection_unique_idempotent_witness :
  selected_count (handleQualitySelection 1 Sample.previewed) = 1 /\
  selectedFormatId (handleQualitySelection 1 Sample.previewed) = Some (str "f2").
Proof.
  pose proof (selection_unique_idempotent Sample.previewed 1
                (mkButton (str "720p") (str "f2") (str "30MB") false)
                eq_refl) as H.
  split.
  - exact (proj1 H).
  - exact (proj1 (proj2 (proj2 (proj2 (proj2 H))))).
Defined.

End SelectionClaims.

(* ------------------------------------------------------------------ *)
(** ** What is sent and what is shown *)

Section RequestFacts.

Import VideoAPI VideoDownloadApp.

Variable api : VideoAPI.t.
Variable backend : Backend.

(** A fulfilled preview stores the response, selects the first format and
    has issued one request. *)
Lemma getVideoPreview_fulfilled (url : jsstring) (st : State)
  (videoInfo : VideoInfo) (f : Format) (fs : list Format) :
  preview_promise api backend url = Fulfilled videoInfo ->
  formats videoInfo = f :: fs ->
  let st' := getVideoPreview api backend url st in
  currentVideoInfo st' = Some videoInfo /\
  selectedQuality st' = Some (quality f) /\
  selectedFormatId st' = Some (format_id f) /\
  network st' = network st ++ [getVideoPreview_request api url] /\
  videoUrl (elements st') = videoUrl (elements st).
Proof.
  intros Hp Hf. unfold preview_promise in Hp. cbv zeta.
  unfold getVideoPreview. cbv zeta. rewrite Hp.
  unfold displayVideoPreview. rewrite Hf.
  repeat split.
Qed.

Lemma handlePreviewClick_valid (st : State) :
  validateYouTubeURL (videoUrl (elements st)) = true ->
  handlePreviewClick api backend st =
  getVideoPreview api backend (trim (videoUrl (elements st))) st.
Proof.
  intros Hv. unfold handlePreviewClick.
  destruct (trim (videoUrl (elements st))) as [|c u] eqn:E.
  - rewrite (validate_nil_trim _ E) in Hv. discriminate.
  - rewrite <- E, validate_trim, Hv by (rewrite E; discriminate). reflexivity.
Qed.

Lemma handleDownloadClick_ready (st : State) :
  currentVideoInfo st <> None ->
  truthy (selectedQuality st) = true ->
  handleDownloadClick api backend st = downloadVideo api backend st.
Proof.
  intros Hc Hq. unfold handleDownloadClick.
  destruct (currentVideoInfo st); [|congruence].
  rewrite Hq. reflexivity.
Qed.

Lemma downloadVideo_network (st : State) :
  network (downloadVideo api backend st) =
  network st ++
  [downloadVideo_request api (videoUrl (elements st)) (selectedQuality st)
     (selectedFormatId st)].
Proof.
  unfold downloadVideo. cbv zeta.
  cbn [addLoadingState with_elements elements set_downloadBtn_disabled videoUrl
       selectedQuality selectedFormatId].
  destruct (makeRequest _) as [e|r]; [reflexivity|].
  destruct (success r); reflexivity.
Qed.

Lemma downloadVideo_errorMessage (st : State) :
  (forall e, download_promise api backend st = Rejected e ->
     errorMessage (elements (downloadVideo api backend st)) = handleError e) /\
  (forall r, download_promise api backend st = Fulfilled r ->
     success r = false ->
     errorMessage (elements (downloadVideo api backend st)) =
       or_default (resp_message r) (str "Download failed")).
Proof.
  unfold download_promise, downloadVideo. cbv zeta.
  cbn [addLoadingState with_elements elements set_downloadBtn_disabled videoUrl
       selectedQuality selectedFormatId].
  split.
  - intros e He. rewrite He. reflexivity.
  - intros r Hr Hs. rewrite Hr, Hs. reflexivity.
Qed.

Ltac handleError_cases :=
  unfold handleError; cbv zeta;
  repeat match goal with
         | |- context [if ?c then _ else _] => destruct c
         end;
  intros H; vm_compute in H; discriminate H.

(** No output of [handleError] is the text "Video unavailable". *)
Lemma handleError_not_raw (e : VideoAPI.Error) :
  handleError e <> str "Video unavailable".
Proof. handleError_cases. Qed.

(** Nor is any the message shown for an empty URL field. *)
Lemma handleError_not_validation (e : VideoAPI.Error) :
  handleError e <> str "Please enter a YouTube video URL".
Proof. handleError_cases. Qed.

End RequestFacts.

Section RequestClaims.

Import VideoAPI VideoDownloadApp.

(** C10, as the code has it.  The [url] of the download request is the
    content of the URL field when the download is confirmed, with leading and
    trailing white space removed; the quality and the format id are the
    stored selection.  So after a successful preview of one URL and an edit
    of the field, the request combines the new (trimmed) field content with
    the quality and format id of the first format of the old preview. *)
Theorem download_request_uses_field (api : VideoAPI.t) (backend : Backend)
  (st : State) :
  (currentVideoInfo st <> None ->
   truthy (selectedQuality st) = true ->
   network (handleDownloadClick api backend st) =
   network st ++
   [mkRequest (baseURL api ++ endpoint_download) POST
      (DownloadBody (trim (videoUrl (elements st)))
         (selectedQuality st) (selectedFormatId st))]) /\
  (forall v1 v2 videoInfo f fs,
     validateYouTubeURL v1 = true ->
     preview_promise api backend (trim v1) = Fulfilled videoInfo ->
     formats videoInfo = f :: fs ->
     quality f <> [] ->
     let st1 := handlePreviewClick api backend (type_url v1 st) in
     let st2 := handleDownloadClick api backend (type_url v2 st1) in
     network st2 =
     network st ++
     [mkRequest (baseURL api ++ endpoint_preview) POST (PreviewBody (trim v1));
      mkRequest (baseURL api ++ endpoint_download) POST
        (DownloadBody (trim v2) (Some (quality f)) (Some (format_id f)))]).
Proof.
  split.
  - intros Hc Hq. rewrite handleDownloadClick_ready by assumption.
    apply downloadVideo_network.
  - intros v1 v2 videoInfo f fs Hv Hp Hf Hq. cbv zeta.
    rewrite handlePreviewClick_valid by exact Hv.
    cbn [type_url with_elements elements set_videoUrl videoUrl].
    destruct (getVideoPreview_fulfilled api backend (trim v1) (type_url v1 st)
                videoInfo f fs Hp Hf)
      as (Hc & Hsq & Hsf & Hn & _).
    cbv zeta in Hc, Hsq, Hsf, Hn.
    rewrite handleDownloadClick_ready.
    + rewrite downloadVideo_network.
      cbn [type_url with_elements elements set_videoUrl videoUrl network
           selectedQuality selectedFormatId].
      rewrite Hsq, Hsf, Hn.
      cbn [type_url with_elements network].
      unfold getVideoPreview_request, downloadVideo_request, request.
      rewrite trim_idem, <- app_assoc. reflexivity.
    + cbn [type_url with_elements currentVideoInfo]. rewrite Hc. discriminate.
    + cbn [type_url with_elements selectedQuality]. rewrite Hsq.
      destruct (quality f); [congruence | reflexivity].
Qed.

Lemma download_request_uses_field_witness :
  map req_body
    (network
       (handleDownloadClick VideoAPI.new Sample.server_up
          (type_url Sample.url2
             (handlePreviewClick VideoAPI.new Sample.server_up
                (type_url Sample.url1 Sample.page))))) =
  [PreviewBody Sample.url1;
   DownloadBody Sample.url2 (Some (str "1080p")) (Some (str "f1"))] /\
  map req_body
    (network (handleDownloadClick VideoAPI.new Sample.server_up Sample.previewed)) =
  [PreviewBody Sample.url1;
   DownloadBody Sample.url1 (Some (str "1080p")) (Some (str "f1"))].
Proof.
  split.
  - exact (f_equal (map req_body)
             (proj2 (download_request_uses_field VideoAPI.new Sample.server_up
                       Sample.page)
                Sample.url1 Sample.url2 Sample.info Sample.f1 [Sample.f2]
                eq_refl eq_refl eq_refl
                (fun H => eq_ind (str "1080p")
                            (fun l => match l with [] => False | _ :: _ => True end)
                            I [] H))).
  - exact (f_equal (map req_body)
             (proj1 (download_request_uses_field VideoAPI.new Sample.server_up
                       Sample.previewed)
                (fun H => eq_ind (Some Sample.info)
                            (fun o => match o with Some _ => True | None => False end)
                            I None H)
                eq_refl)).
Defined.

(** C10 as stated fails: with a space after the URL in the field, the
    request carries the URL without it, which is not the field content. *)
Lemma download_request_url_trimmed :
  let st := type_url (str "https://youtu.be/dQw4w9WgXcQ ") Sample.previewed in
  map req_body (network (handleDownloadClick VideoAPI.new Sample.server_up st)) =
  [PreviewBody Sample.url1;
   DownloadBody (str "https://youtu.be/dQw4w9WgXcQ")
     (Some (str "1080p")) (Some (str "f1"))] /\
  videoUrl (elements st) <> str "https://youtu.be/dQw4w9WgXcQ".
Proof.
  split.
  - vm_compute. reflexivity.
  - vm_compute. discriminate.
Qed.

(** C1, as the code has it.  When the preview or the download request is
    rejected (time-out, network failure, HTTP error status), the message in
    the error region is [handleError] of the error.  A validation failure
    shows one of two fixed messages, and a download response with
    [success: false] shows the message of the response as it is, or
    "Download failed" when it has none. *)
Theorem error_messages_shown (api : VideoAPI.t) (backend : Backend)
  (st : State) :
  (forall url e, preview_promise api backend url = Rejected e ->
     errorMessage (elements (getVideoPreview api backend url st)) =
       handleError e) /\
  (forall e, download_promise api backend st = Rejected e ->
     errorMessage (elements (downloadVideo api backend st)) = handleError e) /\
  (forall r, download_promise api backend st = Fulfilled r ->
     success r = false ->
     errorMessage (elements (downloadVideo api backend st)) =
       or_default (resp_message r) (str "Download failed")) /\
  (trim (videoUrl (elements st)) = [] ->
     errorMessage (elements (handlePreviewClick api backend st)) =
       str "Please enter a YouTube video URL") /\
  (trim (videoUrl (elements st)) <> [] ->
   validateYouTubeURL (videoUrl (elements st)) = false ->
     errorMessage (elements (handlePreviewClick api backend st)) =
       str "Please enter a valid YouTube video URL").
Proof.
  split; [|split; [|split; [|split]]].
  - intros url e H. unfold preview_promise in H. unfold getVideoPreview.
    cbv zeta. rewrite H. reflexivity.
  - apply downloadVideo_errorMessage.
  - apply downloadVideo_errorMessage.
  - intros H. unfold handlePreviewClick. rewrite H. reflexivity.
  - intros H Hv. unfold handlePreviewClick.
    destruct (trim (videoUrl (elements st))) as [|c u] eqn:E; [congruence|].
    rewrite <- E, validate_trim, Hv by (rewrite E; discriminate). reflexivity.
Qed.

Lemma error_messages_shown_witness :
  errorMessage
    (elements (getVideoPreview VideoAPI.new Sample.server_refusing Sample.url1
                 Sample.page)) =
    str "Server error. Please try again later." /\
  errorMessage
    (elements (downloadVideo VideoAPI.new Sample.server_down Sample.previewed)) =
    str "Request timed out. Please check your connection and try again." /\
  errorMessage
    (elements (downloadVideo VideoAPI.new Sample.server_refusing Sample.previewed)) =
    str "Video unavailable" /\
  errorMessage
    (elements (handlePreviewClick VideoAPI.new Sample.server_up Sample.page)) =
    str "Please enter a YouTube video URL" /\
  errorMessage
    (elements (handlePreviewClick VideoAPI.new Sample.server_up
                 (type_url (str "https://vimeo.com/123") Sample.page))) =
    str "Please enter a valid YouTube video URL".
Proof.
  pose proof (error_messages_shown VideoAPI.new Sample.server_refusing Sample.page)
    as Hr.
  pose proof (error_messages_shown VideoAPI.new Sample.server_down Sample.previewed)
    as Hd.
  pose proof (error_messages_shown VideoAPI.new Sample.server_refusing
                Sample.previewed) as Hf.
  pose proof (error_messages_shown VideoAPI.new Sample.server_up Sample.page)
    as He.
  pose proof (error_messages_shown VideoAPI.new Sample.server_up
                (type_url (str "https://vimeo.com/123") Sample.page)) as Hv.
  split; [|split; [|split; [|split]]].
  - exact (proj1 Hr Sample.url1 _ eq_refl).
  - exact (proj1 (proj2 Hd) _ eq_refl).
  - exact (proj1 (proj2 (proj2 Hf)) _ eq_refl eq_refl).
  - exact (proj1 (proj2 (proj2 (proj2 He))) eq_refl).
  - refine (proj2 (proj2 (proj2 (proj2 Hv))) _ eq_refl).
    vm_compute. discriminate.
Defined.

(** C1 as stated fails: a download answered with [success: false] and the
    message "Video unavailable" shows that very text, which [handleError]
    never produces; [handleError] of that message is another sentence.  The
    message shown for an empty URL field is no output of [handleError]
    either. *)
Lemma raw_server_message_shown :
  errorMessage
    (elements (downloadVideo VideoAPI.new Sample.server_refusing Sample.previewed)) =
    str "Video unavailable" /\
  (forall e, handleError e <> str "Video unavailable") /\
  handleError (mkError (Some (str "Video unavailable"))) =
    str "This video is not available for download. It may be private, deleted, or restricted." /\
  errorMessage
    (elements (handlePreviewClick VideoAPI.new Sample.server_up Sample.page)) =
    str "Please enter a YouTube video URL" /\
  (forall e, handleError e <> str "Please enter a YouTube video URL").
Proof.
  split; [|split; [|split; [|split]]].
  - vm_compute. reflexivity.
  - exact handleError_not_raw.
  - vm_compute. reflexivity.
  - vm_compute. reflexivity.
  - exact handleError_not_validation.
Qed.

End RequestClaims.

(* ------------------------------------------------------------------ *)
(** ** Regular expressions: what a match is *)

Section RegexFacts.

Import Regex.

Lemma ascii_eqb_eq (a b : ascii) : ascii_eqb a b = true <-> a = b.
Proof. apply Ascii.eqb_eq. Qed.

Lemma strip_prefix_app (p s : jsstring) : strip_prefix p (p ++ s) = Some s.
Proof.
  induction p as [|a p IH]; simpl; [reflexivity|].
  unfold ascii_eqb. rewrite Ascii.eqb_refl. exact IH.
Qed.

Lemma strip_prefix_Some (p s r : jsstring) :
  strip_prefix p s = Some r -> s = p ++ r.
Proof.
  revert s. induction p as [|a p IH]; intros s H; simpl in H.
  - injection H as ->. reflexivity.
  - destruct s as [|c s]; [discriminate|].
    destruct (ascii_eqb a c) eqn:E; [|discriminate].
    apply ascii_eqb_eq in E. subst c. simpl. f_equal. apply IH, H.
Qed.

Lemma take_while_Some (cls : ascii -> bool) (s : jsstring) :
  take_while cls s <> [] <->
  exists c rest, s = c :: rest /\ cls c = true.
Proof.
  destruct s as [|c s]; simpl.
  - split; [congruence | intros (c & r & H & _); discriminate].
  - destruct (cls c) eqn:E.
    + split; [eauto | discriminate].
    + split; [congruence|]. intros (c' & r & H & H'). congruence.
Qed.

(** A match at the head of [s] consumes a text the atoms allow, followed by
    at least one character of the final class. *)
Lemma match_here_sound (l : list atom) (cls : ascii -> bool) :
  forall s g, match_here l cls s = Some g ->
  exists pre c rest,
    s = pre ++ c :: rest /\ consumes l pre /\ cls c = true /\
    g = take_while cls (c :: rest).
Proof.
  induction l as [|a l IH]; intros s g H.
  - simpl in H. destruct (take_while cls s) as [|x r] eqn:E; [discriminate|].
    assert (N : take_while cls s <> []) by (rewrite E; discriminate).
    apply take_while_Some in N. destruct N as (c & rest & -> & Hc).
    exists [], c, rest. repeat split; [constructor | exact Hc | congruence].
  - destruct a as [p|p|p]; simpl in H.
    + destruct (strip_prefix p s) as [s'|] eqn:E; [|discriminate].
      apply strip_prefix_Some in E. subst s.
      destruct (IH _ _ H) as (pre & c & rest & -> & Hpre & Hc & Hg).
      exists (p ++ pre), c, rest. rewrite <- app_assoc.
      repeat split; [constructor; exact Hpre | exact Hc | exact Hg].
    + destruct s as [|x s]; [discriminate|].
      destruct (p x) eqn:E; [|discriminate].
      destruct (IH _ _ H) as (pre & c & rest & -> & Hpre & Hc & Hg).
      exists (x :: pre), c, rest.
      repeat split; [constructor; assumption | exact Hc | exact Hg].
    + assert (K : forall s0, match_here l cls s0 = Some g ->
                   exists pre c rest,
                     s0 = pre ++ c :: rest /\ consumes (Opt p :: l) pre /\
                     cls c = true /\ g = take_while cls (c :: rest)).
      { intros s0 H0.
        destruct (IH _ _ H0) as (pre & c & rest & -> & Hpre & Hc & Hg).
        exists pre, c, rest.
        repeat split; [apply consumes_skip; exact Hpre | exact Hc | exact Hg]. }
      destruct (strip_prefix p s) as [s'|] eqn:E; [|exact (K _ H)].
      destruct (match_here l cls s') as [g'|] eqn:M; [|exact (K _ H)].
      injection H as ->.
      apply strip_prefix_Some in E. subst s.
      destruct (IH _ _ M) as (pre & c & rest & -> & Hpre & Hc & Hg).
      exists (p ++ pre), c, rest. rewrite <- app_assoc.
      repeat split; [apply consumes_opt; exact Hpre | exact Hc | exact Hg].
Qed.

(** Conversely such a text is matched (backtracking over the optional
    parts finds it, or an earlier alternative). *)
Lemma match_here_complete (l : list atom) (cls : ascii -> bool) :
  forall pre, consumes l pre ->
  forall c rest, cls c = true ->
  match_here l cls (pre ++ c :: rest) <> None.
Proof.
  intros pre H. induction H as [|p l s H IH|p c0 l s Hp H IH|p l s H IH|p l s H IH];
    intros c rest Hc.
  - simpl. rewrite Hc. discriminate.
  - simpl. rewrite <- app_assoc, strip_prefix_app. apply IH, Hc.
  - simpl. rewrite Hp. apply IH, Hc.
  - simpl. rewrite <- app_assoc, strip_prefix_app.
    specialize (IH c rest Hc).
    destruct (match_here l cls (s ++ c :: rest)); [discriminate | congruence].
  - simpl. specialize (IH c rest Hc).
    destruct (strip_prefix p (s ++ c :: rest)) as [s'|]; [|exact IH].
    destruct (match_here l cls s'); [discriminate | exact IH].
Qed.

(** A match anywhere is found by [search]. *)
Lemma search_complete (l : list atom) (cls : ascii -> bool) (a b : jsstring) :
  match_here l cls b <> None -> search l cls (a ++ b) <> None.
Proof.
  intros H. induction a as [|x a IH]; simpl.
  - destruct b; simpl; destruct (match_here l cls _); congruence.
  - destruct (match_here l cls (x :: a ++ b)); [discriminate | exact IH].
Qed.


Lemma test_anchored (l : list atom) (cls : ascii -> bool) (s : jsstring) :
  test (mkRegex true l cls) s = true <->
  exists pre c rest, s = pre ++ c :: rest /\ consumes l pre /\ cls c = true.
Proof.
  unfold test, exec. simpl. split.
  - destruct (match_here l cls s) as [g|] eqn:E; [|discriminate].
    intros _. destruct (match_here_sound _ _ _ _ E) as (pre & c & rest & H).
    exists pre, c, rest. tauto.
  - intros (pre & c & rest & -> & Hpre & Hc).
    pose proof (match_here_complete l cls pre Hpre c rest Hc) as N.
    destruct (match_here l cls (pre ++ c :: rest)); congruence.
Qed.

(** A character of an id is neither white space nor a separator. *)
Lemma word_or_hyphen_plain (c : ascii) :
  word_or_hyphen c = true ->
  is_whitespace c = false /\ not_char "&"%char c = true /\
  not_char "?"%char c = true.
Proof.
  destruct c as [[] [] [] [] [] [] [] []]; vm_compute; intros H;
    first [discriminate H | repeat split].
Qed.

End RegexFacts.

(* ------------------------------------------------------------------ *)
(** ** URL validation and id extraction *)

Section UrlFacts.

Import Regex VideoAPI Shapes.

Ltac invert_consumes :=
  repeat match goal with
         | H : consumes (_ :: _) _ |- _ => inversion H; clear H; subst
         | H : consumes [] _ |- _ => inversion H; clear H; subst
         end.

Lemma in_schemes_http : In (str "http") schemes.
Proof. left. reflexivity. Qed.

Lemma in_schemes_https : In (str "https") schemes.
Proof. right. left. reflexivity. Qed.

Lemma in_sites_bare : In (str "youtube.com") sites.
Proof. left. reflexivity. Qed.

Lemma in_sites_www : In (str "www.youtube.com") sites.
Proof. right. left. reflexivity. Qed.

Lemma is_id_single (c : ascii) : word_or_hyphen c = true -> is_id [c].
Proof. intros H. split; [discriminate | simpl; rewrite H; reflexivity]. Qed.

Lemma is_id_head (id : jsstring) :
  is_id id -> exists c id', id = c :: id' /\ word_or_hyphen c = true.
Proof.
  intros [Hne Hall]. destruct id as [|c id']; [congruence|].
  simpl in Hall. apply andb_true_iff in Hall. exists c, id'. tauto.
Qed.

Lemma consumes_scheme (secure : bool) (l : list atom) (s : jsstring) :
  consumes l s ->
  consumes (scheme ++ l)
    (str "http" ++ (if secure then str "s" else []) ++ str "://" ++ s).
Proof.
  intros H. unfold scheme. simpl app at 1.
  apply consumes_lit.
  destruct secure.
  - apply consumes_opt. apply consumes_lit. exact H.
  - apply consumes_skip. apply (consumes_lit (str "://")). exact H.
Qed.

Lemma consumes_site (www : bool) (path : jsstring) :
  consumes [Opt (str "www."); Lit (str "youtube.com" ++ path)]
    ((if www then str "www." else []) ++ (str "youtube.com" ++ path) ++ []).
Proof.
  destruct www.
  - apply consumes_opt. apply consumes_lit. constructor.
  - apply consumes_skip. apply (consumes_lit (str "youtube.com" ++ path)).
    constructor.
Qed.

(** A string has a recognized shape exactly when one of the four patterns
    consumes a prefix of it that an id character follows. *)
Lemma recognized_matches (s : jsstring) :
  recognized s <->
  exists pat pre c rest,
    In pat patterns /\ anchored pat = true /\ final pat = word_or_hyphen /\
    s = pre ++ c :: rest /\ consumes (atoms pat) pre /\
    word_or_hyphen c = true.
Proof.
  split.
  - intros H.
    assert (S1 : forall sc, In sc schemes ->
              exists b : bool, sc = str "http" ++ (if b then str "s" else [])).
    { intros sc [<-|[<-|[]]]; [exists false | exists true]; reflexivity. }
    assert (S2 : forall si, In si sites ->
              exists b : bool, si = (if b then str "www." else []) ++ str "youtube.com").
    { intros si [<-|[<-|[]]]; [exists false | exists true]; reflexivity. }
    destruct H as [sc si id rest Hsc Hsi Hid | sc id rest Hsc Hid
                  | sc si id rest Hsc Hsi Hid | sc si id rest Hsc Hsi Hid];
      destruct (is_id_head _ Hid) as (c & id' & -> & Hc);
      destruct (S1 _ Hsc) as [b1 ->];
      try destruct (S2 _ Hsi) as [b2 ->].
    + exists (nth 0 patterns (mkRegex false [] word)),
        (str "http" ++ (if b1 then str "s" else []) ++ str "://" ++
         (if b2 then str "www." else []) ++ (str "youtube.com" ++ str "/watch?v=") ++ []),
        c, (id' ++ rest).
      repeat split; [left; reflexivity | | | exact Hc].
      * destruct b1, b2; reflexivity.
      * apply (consumes_scheme b1), (consumes_site b2).
    + exists (nth 1 patterns (mkRegex false [] word)),
        (str "http" ++ (if b1 then str "s" else []) ++ str "://" ++
         (str "youtu.be/" ++ [])),
        c, (id' ++ rest).
      repeat split; [right; left; reflexivity | | | exact Hc].
      * destruct b1; reflexivity.
      * apply (consumes_scheme b1). apply consumes_lit. constructor.
    + exists (nth 2 patterns (mkRegex false [] word)),
        (str "http" ++ (if b1 then str "s" else []) ++ str "://" ++
         (if b2 then str "www." else []) ++ (str "youtube.com" ++ str "/embed/") ++ []),
        c, (id' ++ rest).
      repeat split; [right; right; left; reflexivity | | | exact Hc].
      * destruct b1, b2; reflexivity.
      * apply (consumes_scheme b1), (consumes_site b2).
    + exists (nth 3 patterns (mkRegex false [] word)),
        (str "http" ++ (if b1 then str "s" else []) ++ str "://" ++
         (if b2 then str "www." else []) ++ (str "youtube.com" ++ str "/v/") ++ []),
        c, (id' ++ rest).
      repeat split; [right; right; right; left; reflexivity | | | exact Hc].
      * destruct b1, b2; reflexivity.
      * apply (consumes_scheme b1), (consumes_site b2).
  - intros (pat & pre & c & rest & Hin & _ & _ & -> & Hpre & Hc).
    pose proof (is_id_single c Hc) as Hid.
    destruct Hin as [<-|[<-|[<-|[<-|[]]]]]; simpl in Hpre; invert_consumes.
    + exact (watch_form (str "https") (str "www.youtube.com") [c] rest
               in_schemes_https in_sites_www Hid).
    + exact (watch_form (str "https") (str "youtube.com") [c] rest
               in_schemes_https in_sites_bare Hid).
    + exact (watch_form (str "http") (str "www.youtube.com") [c] rest
               in_schemes_http in_sites_www Hid).
    + exact (watch_form (str "http") (str "youtube.com") [c] rest
               in_schemes_http in_sites_bare Hid).
    + exact (short_form (str "https") [c] rest in_schemes_https Hid).
    + exact (short_form (str "http") [c] rest in_schemes_http Hid).
    + exact (embed_form (str "https") (str "www.youtube.com") [c] rest
               in_schemes_https in_sites_www Hid).
    + exact (embed_form (str "https") (str "youtube.com") [c] rest
               in_schemes_https in_sites_bare Hid).
    + exact (embed_form (str "http") (str "www.youtube.com") [c] rest
               in_schemes_http in_sites_www Hid).
    + exact (embed_form (str "http") (str "youtube.com") [c] rest
               in_schemes_http in_sites_bare Hid).
    + exact (v_form (str "https") (str "www.youtube.com") [c] rest
               in_schemes_https in_sites_www Hid).
    + exact (v_form (str "https") (str "youtube.com") [c] rest
               in_schemes_https in_sites_bare Hid).
    + exact (v_form (str "http") (str "www.youtube.com") [c] rest
               in_schemes_http in_sites_www Hid).
    + exact (v_form (str "http") (str "youtube.com") [c] rest
               in_schemes_http in_sites_bare Hid).
Qed.

(** Every pattern starts with the letter h. *)
Lemma pattern_head (pat : regex) (pre : jsstring) :
  In pat patterns -> consumes (atoms pat) pre ->
  exists pre', pre = "h"%char :: pre'.
Proof.
  intros Hin H.
  destruct Hin as [<-|[<-|[<-|[<-|[]]]]]; simpl in H;
    inversion H; subst; eexists; reflexivity.
Qed.

Lemma trimEnd_keeps (pre : jsstring) (c : ascii) (rest : jsstring) :
  is_whitespace c = false ->
  exists rest', trimEnd (pre ++ c :: rest) = pre ++ c :: rest'.
Proof.
  intros W. induction pre as [|a pre IH]; simpl.
  - apply trimEnd_head, W.
  - destruct IH as [r Hr]. rewrite trimEnd_cons, Hr.
    exists r. destruct (pre ++ c :: r) eqn:E; [|reflexivity].
    destruct pre; discriminate.
Qed.

Lemma recognized_trim (s : jsstring) : recognized s -> recognized (trim s).
Proof.
  intros H. apply recognized_matches in H.
  destruct H as (pat & pre & c & rest & Hin & Ha & Hf & -> & Hpre & Hc).
  destruct (pattern_head _ _ Hin Hpre) as [pre' ->].
  destruct (word_or_hyphen_plain c Hc) as (W & _).
  destruct (trimEnd_keeps ("h"%char :: pre') c rest W) as [r Hr].
  unfold trim. simpl app. rewrite trimStart_fixed by reflexivity.
  simpl app in Hr. rewrite Hr.
  apply recognized_matches. exists pat, ("h"%char :: pre'), c, r. tauto.
Qed.

Lemma recognized_not_nil : ~ recognized [].
Proof.
  intros H. apply recognized_matches in H.
  destruct H as (pat & pre & c & rest & _ & _ & _ & E & _).
  destruct pre; discriminate.
Qed.

(** The validation accepts exactly the strings that, trimmed, have a
    recognized shape. *)
Lemma validate_recognized (url : jsstring) :
  validateYouTubeURL url = true <-> recognized (trim url).
Proof.
  split.
  - intros H. unfold validateYouTubeURL in H.
    destruct url as [|x url]; [discriminate|].
    apply existsb_exists in H. destruct H as (pat & Hin & Ht).
    apply recognized_matches.
    assert (Hpat : anchored pat = true /\ final pat = word_or_hyphen).
    { destruct Hin as [<-|[<-|[<-|[<-|[]]]]]; split; reflexivity. }
    destruct Hpat as [Ha Hf].
    destruct pat as [a l cls]. simpl in Ha, Hf. subst a cls.
    apply test_anchored in Ht. destruct Ht as (pre & c & rest & E & Hpre & Hc).
    exists (mkRegex true l word_or_hyphen), pre, c, rest. tauto.
  - intros H.
    assert (Hne : url <> []).
    { intros ->. exact (recognized_not_nil H). }
    apply recognized_matches in H.
    destruct H as (pat & pre & c & rest & Hin & Ha & Hf & E & Hpre & Hc).
    unfold validateYouTubeURL. destruct url as [|x url]; [congruence|].
    apply existsb_exists. exists pat. split; [exact Hin|].
    destruct pat as [a l cls]. simpl in Ha, Hf, Hpre. subst a cls.
    apply test_anchored. exists pre, c, rest. tauto.
Qed.

Lemma validate_false (url : jsstring) :
  ~ recognized (trim url) -> validateYouTubeURL url = false.
Proof.
  intros H. destruct (validateYouTubeURL url) eqn:E; [|reflexivity].
  apply validate_recognized in E. contradiction.
Qed.

Lemma exec_search_found (l : list atom) (cls : ascii -> bool)
  (a b : jsstring) :
  match_here l cls b <> None ->
  exists id, exec (mkRegex false l cls) (a ++ b) = Some id.
Proof.
  intros H. unfold exec. simpl.
  pose proof (search_complete l cls a b H) as N.
  destruct (search l cls (a ++ b)) as [g|]; [eauto | congruence].
Qed.

(** On a string of a recognized shape one of the extraction patterns
    matches. *)
Lemma first_capture_found (s : jsstring) :
  recognized s ->
  exists id, first_capture [watchRe; shortRe; embedRe; vRe] s = Some id.
Proof.
  intros H. apply recognized_matches in H.
  destruct H as (pat & pre & c & rest & Hin & _ & _ & -> & Hpre & Hc).
  destruct (word_or_hyphen_plain c Hc) as (_ & Hamp & Hq).
  assert (W : forall a,
            exists id, exec watchRe (a ++ str "?v=" ++ c :: rest) = Some id).
  { intros a. apply exec_search_found. simpl. rewrite Hamp. discriminate. }
  assert (S : forall a,
            exists id, exec shortRe (a ++ str "youtu.be/" ++ c :: rest) = Some id).
  { intros a. apply exec_search_found. simpl. rewrite Hq. discriminate. }
  assert (E : forall a,
            exists id, exec embedRe (a ++ str "embed/" ++ c :: rest) = Some id).
  { intros a. apply exec_search_found. simpl. rewrite Hq. discriminate. }
  assert (V : forall a,
            exists id, exec vRe (a ++ str "/v/" ++ c :: rest) = Some id).
  { intros a. apply exec_search_found. simpl. rewrite Hq. discriminate. }
  unfold first_capture.
  destruct Hin as [<-|[<-|[<-|[<-|[]]]]]; simpl in Hpre; invert_consumes.
  - destruct (W (str "https://www.youtube.com/watch")) as [id Hid].
    simpl app in Hid. simpl app. rewrite Hid. eauto.
  - destruct (W (str "https://youtube.com/watch")) as [id Hid].
    simpl app in Hid. simpl app. rewrite Hid. eauto.
  - destruct (W (str "http://www.youtube.com/watch")) as [id Hid].
    simpl app in Hid. simpl app. rewrite Hid. eauto.
  - destruct (W (str "http://youtube.com/watch")) as [id Hid].
    simpl app in Hid. simpl app. rewrite Hid. eauto.
  - destruct (exec watchRe _) as [g|]; [eauto|].
    destruct (S (str "https://")) as [id Hid].
    simpl app in Hid. simpl app. rewrite Hid. eauto.
  - destruct (exec watchRe _) as [g|]; [eauto|].
    destruct (S (str "http://")) as [id Hid].
    simpl app in Hid. simpl app. rewrite Hid. eauto.
  - destruct (exec watchRe _) as [g|]; [eauto|].
    destruct (exec shortRe _) as [g|]; [eauto|].
    destruct (E (str "https://www.youtube.com/")) as [id Hid].
    simpl app in Hid. simpl app. rewrite Hid. eauto.
  - destruct (exec watchRe _) as [g|]; [eauto|].
    destruct (exec shortRe _) as [g|]; [eauto|].
    destruct (E (str "https://youtube.com/")) as [id Hid].
    simpl app in Hid. simpl app. rewrite Hid. eauto.
  - destruct (exec watchRe _) as [g|]; [eauto|].
    destruct (exec shortRe _) as [g|]; [eauto|].
    destruct (E (str "http://www.youtube.com/")) as [id Hid].
    simpl app in Hid. simpl app. rewrite Hid. eauto.
  - destruct (exec watchRe _) as [g|]; [eauto|].
    destruct (exec shortRe _) as [g|]; [eauto|].
    destruct (E (str "http://youtube.com/")) as [id Hid].
    simpl app in Hid. simpl app. rewrite Hid. eauto.
  - destruct (exec watchRe _) as [g|]; [eauto|].
    destruct (exec shortRe _) as [g|]; [eauto|].
    destruct (exec embedRe _) as [g|]; [eauto|].
    destruct (V (str "https://www.youtube.com")) as [id Hid].
    simpl app in Hid. simpl app. rewrite Hid. eauto.
  - destruct (exec watchRe _) as [g|]; [eauto|].
    destruct (exec shortRe _) as [g|]; [eauto|].
    destruct (exec embedRe _) as [g|]; [eauto|].
    destruct (V (str "https://youtube.com")) as [id Hid].
    simpl app in Hid. simpl app. rewrite Hid. eauto.
  - destruct (exec watchRe _) as [g|]; [eauto|].
    destruct (exec shortRe _) as [g|]; [eauto|].
    destruct (exec embedRe _) as [g|]; [eauto|].
    destruct (V (str "http://www.youtube.com")) as [id Hid].
    simpl app in Hid. simpl app. rewrite Hid. eauto.
  - destruct (exec watchRe _) as [g|]; [eauto|].
    destruct (exec shortRe _) as [g|]; [eauto|].
    destruct (exec embedRe _) as [g|]; [eauto|].
    destruct (V (str "http://youtube.com")) as [id Hid].
    simpl app in Hid. simpl app. rewrite Hid. eauto.
Qed.

Lemma extractVideoID_valid (url : jsstring) :
  validateYouTubeURL url = true ->
  extractVideoID url = first_capture [watchRe; shortRe; embedRe; vRe] (trim url).
Proof.
  intros H. unfold extractVideoID. rewrite H. simpl.
  destruct (exec watchRe (trim url)); [reflexivity|].
  destruct (exec shortRe (trim url)); [reflexivity|].
  reflexivity.
Qed.

End UrlFacts.

Section UrlClaims.

Import Regex VideoAPI Shapes.

(** C8.  [validateYouTubeURL] returns true for every string of one of the
    four recognized shapes, and false for every string that, surrounding
    white space removed, has none of them; "https://vimeo.com/123" is
    rejected. *)
Theorem validate_recognized_shapes :
  (forall url, recognized url -> validateYouTubeURL url = true) /\
  (forall url, ~ recognized (trim url) -> validateYouTubeURL url = false) /\
  (forall url, validateYouTubeURL url = true <-> recognized (trim url)) /\
  validateYouTubeURL (str "https://vimeo.com/123") = false.
Proof.
  split; [|split; [|split]].
  - intros url H. apply validate_recognized, recognized_trim, H.
  - exact validate_false.
  - exact validate_recognized.
  - reflexivity.
Qed.

Lemma validate_recognized_shapes_witness :
  validateYouTubeURL (str "https://www.youtube.com/embed/a-b_9?start=3") = true /\
  validateYouTubeURL (str "youtu.be/abc123") = false.
Proof.
  split.
  - apply (proj1 validate_recognized_shapes).
    exact (embed_form (str "https") (str "www.youtube.com") (str "a-b_9")
             (str "?start=3") in_schemes_https in_sites_www
             (conj (fun H => eq_ind (str "a-b_9")
                               (fun l => match l with [] => False | _ :: _ => True end)
                               I [] H)
                   eq_refl)).
  - apply (proj1 (proj2 validate_recognized_shapes)).
    intros H. apply validate_recognized in H. vm_compute in H. discriminate H.
Defined.

(** C3, as the code has it.  [extractVideoID] returns "abc123" for
    "https://youtu.be/abc123" and for
    "https://www.youtube.com/watch?v=abc123&t=5"; it returns null for every
    URL that, trimmed, has none of the four recognized shapes; and for a URL
    that has one, it returns group 1 of the first of the patterns
    [/[?&]v=([^&]+)/], [/youtu\.be\/([^?]+)/], [/embed\/([^?]+)/],
    [/\/v\/([^?]+)/] that matches the trimmed URL, one of which always
    does. *)
Theorem extractVideoID_first_capture :
  extractVideoID (str "https://youtu.be/abc123") = Some (str "abc123") /\
  extractVideoID (str "https://www.youtube.com/watch?v=abc123&t=5") =
    Some (str "abc123") /\
  (forall url, ~ recognized (trim url) -> extractVideoID url = None) /\
  (forall url, recognized (trim url) ->
     extractVideoID url =
       first_capture [watchRe; shortRe; embedRe; vRe] (trim url) /\
     exists id, extractVideoID url = Some id).
Proof.
  split; [|split; [|split]].
  - vm_compute. reflexivity.
  - vm_compute. reflexivity.
  - intros url H. unfold extractVideoID.
    rewrite (validate_false url H). reflexivity.
  - intros url H.
    assert (E := extractVideoID_valid url (proj2 (validate_recognized url) H)).
    split; [exact E|]. rewrite E. apply first_capture_found, H.
Qed.

Lemma extractVideoID_first_capture_witness :
  extractVideoID (str "http://x.com/") = None /\
  extractVideoID (str " https://youtu.be/abc?v=xyz ") = Some (str "xyz").
Proof.
  split.
  - apply (proj1 (proj2 (proj2 extractVideoID_first_capture))).
    intros H. apply validate_recognized in H. vm_compute in H. discriminate H.
  - refine (eq_trans
              (proj1 (proj2 (proj2 (proj2 extractVideoID_first_capture))
                        (str " https://youtu.be/abc?v=xyz ") _))
              _).
    + exact (short_form (str "https") (str "abc") (str "?v=xyz")
               in_schemes_https
               (conj (fun H => eq_ind (str "abc")
                                 (fun l => match l with [] => False | _ :: _ => True end)
                                 I [] H)
                     eq_refl)).
    + vm_compute. reflexivity.
Defined.

(** C3 as stated fails: the host x.com is not recognized, so the id of
    "https://x.com/watch?v=abc123&t=5" is not extracted. *)
Lemma extractVideoID_unrecognized_host :
  extractVideoID (str "https://x.com/watch?v=abc123&t=5") = None /\
  extractVideoID (str "https://x.com/watch?v=abc123&t=5") <> Some (str "abc123").
Proof.
  split.
  - vm_compute. reflexivity.
  - vm_compute. discriminate.
Qed.

End UrlClaims.

(* ------------------------------------------------------------------ *)
(** ** Number formatting *)

Section NumberFacts.

Import Number.

Local Open Scope Z_scope.

Lemma digits_bounds (p : positive) :
  2 ^ Zpos (digits2_pos p) <= 2 * Zpos p /\ Zpos p < 2 ^ Zpos (digits2_pos p).
Proof.
  induction p as [p IH|p IH|]; simpl digits2_pos.
  - rewrite Pos2Z.inj_succ, Z.pow_succ_r by lia. lia.
  - rewrite Pos2Z.inj_succ, Z.pow_succ_r by lia. lia.
  - simpl. lia.
Qed.

Lemma digits_unique (p : positive) (k : Z) :
  2 ^ (k - 1) <= Zpos p < 2 ^ k -> Zpos (digits2_pos p) = k.
Proof.
  intros [Hl Hu]. destruct (digits_bounds p) as [Bl Bu].
  assert (K : 0 < k).
  { destruct (Z.le_gt_cases k 0) as [H|H]; [|exact H].
    assert (2 ^ k <= 2 ^ 0) by (destruct (Z.lt_trichotomy k 0) as [N|[N|N]];
      [rewrite Z.pow_neg_r by lia; simpl; lia | subst; lia | lia]).
    simpl in *. lia. }
  set (d := Zpos (digits2_pos p)) in *.
  assert (0 < d) by (unfold d; lia).
  destruct (Z.lt_trichotomy d k) as [N|[N|N]]; [|exact N|].
  - assert (2 ^ d <= 2 ^ (k - 1)) by (apply Z.pow_le_mono_r; lia). lia.
  - assert (2 ^ k <= 2 ^ (d - 1)) by (apply Z.pow_le_mono_r; lia).
    replace d with (Z.succ (d - 1)) in Bl by lia.
    rewrite Z.pow_succ_r in Bl by lia. lia.
Qed.

Lemma digits_53 (p : positive) :
  Zpos (digits2_pos p) = 53 <-> two52 <= Zpos p < two53.
Proof.
  split.
  - intros H. destruct (digits_bounds p) as [Bl Bu]. rewrite H in Bl, Bu.
    change (2 ^ 53) with two53 in *. unfold two52, two53 in *. lia.
  - intros H. apply digits_unique. exact H.
Qed.

Lemma digits_54 (p : positive) :
  Zpos (digits2_pos p) = 54 <-> two53 <= Zpos p < two54.
Proof.
  split.
  - intros H. destruct (digits_bounds p) as [Bl Bu]. rewrite H in Bl, Bu.
    change (2 ^ 54) with two54 in *. unfold two53, two54 in *. lia.
  - intros H. apply digits_unique. exact H.
Qed.

Lemma loc_of_shr_record_of_loc (m : Z) (l : location) :
  loc_of_shr_record (shr_record_of_loc m l) = l /\
  shr_m (shr_record_of_loc m l) = m.
Proof. destruct l as [|[]]; split; reflexivity. Qed.




Lemma iter_xO (p k : positive) :
  Zpos (Pos.iter xO p k) = Zpos p * 2 ^ Zpos k.
Proof.
  induction k as [|k IH] using Pos.peano_ind.
  - simpl. lia.
  - rewrite Pos.iter_succ, Pos2Z.inj_xO, IH, Pos2Z.inj_succ, Z.pow_succ_r by lia.
    lia.
Qed.







End NumberFacts.

Section NumberClaims.

Import Number VideoAPI.

Local Open Scope Z_scope.



End NumberClaims.

(* ------------------------------------------------------------------ *)
(** ** More on URL validation and id extraction *)

Section UrlMoreFacts.

Import Regex VideoAPI Shapes.

Lemma forallb_rev (p : ascii -> bool) (l : jsstring) :
  forallb p (rev l) = forallb p l.
Proof.
  induction l as [|a l IH]; simpl; [reflexivity|].
  rewrite forallb_app, IH. simpl. rewrite andb_true_r. apply andb_comm.
Qed.

Lemma drop_while_app_all (p : ascii -> bool) (a b : jsstring) :
  forallb p a = true -> drop_while p (a ++ b) = drop_while p b.
Proof.
  induction a as [|x a IH]; simpl; [reflexivity|].
  destruct (p x); simpl; [exact IH | discriminate].
Qed.

Lemma drop_while_app_stop (p : ascii -> bool) (a b : jsstring) :
  forallb p a = false -> drop_while p (a ++ b) = drop_while p a ++ b.
Proof.
  induction a as [|x a IH]; simpl; [discriminate|].
  destruct (p x); simpl; [exact IH | reflexivity].
Qed.

Lemma trimEnd_app_white (s w : jsstring) :
  forallb is_whitespace w = true -> trimEnd (s ++ w) = trimEnd s.
Proof.
  intros H. unfold trimEnd. rewrite rev_app_distr, drop_while_app_all; auto.
  rewrite forallb_rev. exact H.
Qed.

(** White space around a string does not change what [trim] returns. *)
Lemma trim_padded (w1 s w2 : jsstring) :
  forallb is_whitespace w1 = true -> forallb is_whitespace w2 = true ->
  trim (w1 ++ s ++ w2) = trim s.
Proof.
  intros H1 H2. unfold trim, trimStart.
  rewrite drop_while_app_all by exact H1.
  destruct (forallb is_whitespace s) eqn:E.
  - rewrite drop_while_app_all by exact E.
    rewrite (drop_while_all _ _ E), (drop_while_all _ _ H2). reflexivity.
  - rewrite drop_while_app_stop by exact E. apply trimEnd_app_white, H2.
Qed.

Lemma trimEnd_snoc (s : jsstring) (c : ascii) :
  is_whitespace c = false -> trimEnd (s ++ [c]) = s ++ [c].
Proof.
  intros H. unfold trimEnd. rewrite rev_app_distr. simpl. rewrite H.
  simpl. rewrite rev_involutive. reflexivity.
Qed.

Lemma validate_trim_all (url : jsstring) :
  validateYouTubeURL (trim url) = validateYouTubeURL url.
Proof.
  destruct (trim url) as [|c u] eqn:E.
  - rewrite (validate_nil_trim _ E). reflexivity.
  - rewrite <- E. apply validate_trim. rewrite E. discriminate.
Qed.

Lemma extract_trim_all (url : jsstring) :
  extractVideoID (trim url) = extractVideoID url.
Proof.
  unfold extractVideoID. rewrite validate_trim_all, trim_idem. reflexivity.
Qed.



Lemma take_while_all (p : ascii -> bool) (s r : jsstring) :
  forallb p s = true ->
  match r with [] => True | c :: _ => p c = false end ->
  take_while p (s ++ r) = s.
Proof.
  intros H Hr. induction s as [|c s IH]; simpl.
  - destruct r as [|c r]; [reflexivity|]. simpl. rewrite Hr. reflexivity.
  - simpl in H. apply andb_true_iff in H. destruct H as [Hc Hs].
    rewrite Hc, (IH Hs). reflexivity.
Qed.



Lemma search_skip (l : list atom) (cls : ascii -> bool) (x : ascii)
  (s : jsstring) :
  match_here l cls (x :: s) = None -> search l cls (x :: s) = search l cls s.
Proof. intros H. simpl. rewrite H. reflexivity. Qed.

Lemma search_hit (l : list atom) (cls : ascii -> bool) (s g : jsstring) :
  match_here l cls s = Some g -> search l cls s = Some g.
Proof. intros H. destruct s; simpl; rewrite H; reflexivity. Qed.

(** A pattern that must start with a character no id has finds nothing in
    an id. *)
Lemma search_in_id (l : list atom) (cls : ascii -> bool) (s : jsstring) :
  (forall t, forallb word_or_hyphen t = true -> match_here l cls t = None) ->
  forallb word_or_hyphen s = true -> search l cls s = None.
Proof.
  intros Hl. induction s as [|c s IH]; intros H.
  - simpl. rewrite (Hl [] eq_refl). reflexivity.
  - simpl. rewrite (Hl _ H). simpl in H. apply andb_true_iff in H.
    apply IH, H.
Qed.

Lemma lit_not_in_id (p : jsstring) (l : list atom) (cls : ascii -> bool)
  (t : jsstring) :
  forallb word_or_hyphen p = false -> forallb word_or_hyphen t = true ->
  match_here (Lit p :: l) cls t = None.
Proof.
  intros Hp Ht. simpl. destruct (strip_prefix p t) as [r|] eqn:E; [|reflexivity].
  apply strip_prefix_Some in E. subst t. rewrite forallb_app, Hp in Ht.
  discriminate.
Qed.

Lemma sep_not_in_id (l : list atom) (cls : ascii -> bool) (t : jsstring) :
  forallb word_or_hyphen t = true ->
  match_here (Cls query_sep :: l) cls t = None.
Proof.
  intros Ht. simpl. destruct t as [|c t]; [reflexivity|].
  simpl in Ht. apply andb_true_iff in Ht. destruct Ht as [Hc _].
  replace (query_sep c) with false; [reflexivity|].
  destruct (word_or_hyphen_plain c Hc) as (_ & Ha & Hq).
  unfold query_sep, not_char in *.
  destruct (ascii_eqb c "?"); [discriminate|].
  destruct (ascii_eqb c "&"); [discriminate|]. reflexivity.
Qed.

End UrlMoreFacts.

Section CanonicalUrlFacts.

Import Regex VideoAPI Shapes.

Lemma id_no_amp (id : jsstring) :
  forallb word_or_hyphen id = true ->
  forallb (not_char "&"%char) id = true /\ forallb (not_char "?"%char) id = true.
Proof.
  induction id as [|c id IH]; simpl; [auto|].
  intros H. apply andb_true_iff in H. destruct H as [Hc Hid].
  destruct (word_or_hyphen_plain c Hc) as (_ & Ha & Hq).
  destruct (IH Hid) as [I1 I2]. rewrite Ha, Hq, I1, I2. auto.
Qed.

Lemma take_while_id (p : ascii -> bool) (s : jsstring) :
  forallb p s = true -> take_while p s = s.
Proof.
  intros H. rewrite <- (app_nil_r s) at 1. apply take_while_all; [exact H | exact I].
Qed.

Ltac skip_prefix := repeat (rewrite search_skip by reflexivity).

Lemma match_final (cls : ascii -> bool) (id rest : jsstring) :
  id <> [] -> forallb cls id = true ->
  match rest with [] => True | c :: _ => cls c = false end ->
  match_here [] cls (id ++ rest) = Some id.
Proof.
  intros Hne Hid Hr. simpl. rewrite (take_while_all cls id rest Hid Hr).
  destruct id; [congruence | reflexivity].
Qed.

Lemma match_final_end (cls : ascii -> bool) (id : jsstring) :
  id <> [] -> forallb cls id = true -> match_here [] cls id = Some id.
Proof.
  intros Hne Hid. rewrite <- (app_nil_r id) at 1.
  apply match_final; [exact Hne | exact Hid | exact I].
Qed.

Lemma search_lit_in_id (p : jsstring) (l : list atom) (cls : ascii -> bool)
  (s : jsstring) :
  forallb word_or_hyphen s = true -> forallb word_or_hyphen p = false ->
  search (Lit p :: l) cls s = None.
Proof.
  intros Hs Hp. apply search_in_id; [|exact Hs].
  intros t Ht. apply lit_not_in_id; assumption.
Qed.

Lemma search_sep_in_id (l : list atom) (cls : ascii -> bool) (s : jsstring) :
  forallb word_or_hyphen s = true -> search (Cls query_sep :: l) cls s = None.
Proof. intros Hs. apply search_in_id; [apply sep_not_in_id | exact Hs]. Qed.

Ltac capture id Hne Hid Ha Hq :=
  unfold first_capture, exec, watchRe, shortRe, embedRe, vRe;
  cbn [anchored atoms final app str list_ascii_of_string];
  repeat (first
    [ rewrite search_skip by reflexivity
    | rewrite (search_sep_in_id _ _ id Hid)
    | rewrite (search_lit_in_id _ _ _ id Hid) by reflexivity ];
    cbv beta iota);
  lazymatch goal with
  | |- match search ?l ?cls ?s with Some _ => _ | None => _ end = Some _ =>
      let Hh := fresh in
      assert (Hh : search l cls s = Some id);
      [ apply search_hit;
        lazymatch s with
        | context [id ++ ?r] =>
            change (match_here [] cls (id ++ r) = Some id);
            apply match_final; [exact Hne | exact Ha | reflexivity]
        | _ =>
            change (match_here [] cls id = Some id);
            apply match_final_end; [exact Hne | first [exact Ha | exact Hq]]
        end
      | rewrite Hh; reflexivity ]
  end.

Lemma capture_canonical (scheme site id : jsstring) :
  In scheme schemes -> In site sites -> is_id id ->
  let rs := [watchRe; shortRe; embedRe; vRe] in
  first_capture rs (scheme ++ str "://" ++ site ++ str "/watch?v=" ++ id) = Some id /\
  (forall rest,
     first_capture rs
       (scheme ++ str "://" ++ site ++ str "/watch?v=" ++ id ++ "&"%char :: rest) =
       Some id) /\
  first_capture rs (scheme ++ str "://youtu.be/" ++ id) = Some id /\
  first_capture rs (scheme ++ str "://" ++ site ++ str "/embed/" ++ id) = Some id /\
  first_capture rs (scheme ++ str "://" ++ site ++ str "/v/" ++ id) = Some id.
Proof.
  intros Hsc Hsi [Hne Hid] rs. subst rs.
  destruct (id_no_amp id Hid) as [Ha Hq].
  destruct Hsc as [<-|[<-|[]]]; destruct Hsi as [<-|[<-|[]]];
    (split; [|split; [|split; [|split]]]); try intros rest.
  all: capture id Hne Hid Ha Hq.
Qed.

Lemma trimEnd_app (a t : jsstring) :
  trimEnd t <> [] -> trimEnd (a ++ t) = a ++ trimEnd t.
Proof.
  intros H. induction a as [|c a IH]; simpl; [reflexivity|].
  rewrite trimEnd_cons, IH.
  destruct (a ++ trimEnd t) eqn:E; [|reflexivity].
  apply app_eq_nil in E. tauto.
Qed.

Lemma trimEnd_id (id : jsstring) : is_id id -> trimEnd id = id.
Proof.
  intros [Hne Hid].
  destruct (exists_last Hne) as (id' & d & ->).
  rewrite forallb_app in Hid. apply andb_true_iff in Hid.
  destruct Hid as [_ Hd]. simpl in Hd. rewrite andb_true_r in Hd.
  apply trimEnd_snoc. apply (word_or_hyphen_plain d Hd).
Qed.

(** A URL that starts with a scheme and ends with an id, or goes on after
    the id with an ampersand, keeps all up to there when trimmed. *)
Lemma trim_url (scheme mid id : jsstring) :
  In scheme schemes -> is_id id ->
  trim (scheme ++ mid ++ id) = scheme ++ mid ++ id /\
  forall rest, exists rest',
    trim (scheme ++ mid ++ id ++ "&"%char :: rest) =
    scheme ++ mid ++ id ++ "&"%char :: rest'.
Proof.
  intros Hsc Hid.
  assert (Hs : forall t, trimStart (scheme ++ t) = scheme ++ t).
  { intros t. destruct Hsc as [<-|[<-|[]]]; reflexivity. }
  assert (Hne : id <> []) by apply Hid.
  assert (Hi : trimEnd id = id) by (apply trimEnd_id, Hid).
  split.
  - unfold trim. rewrite Hs.
    assert (E1 : trimEnd (mid ++ id) = mid ++ id).
    { rewrite trimEnd_app; rewrite Hi; [reflexivity | exact Hne]. }
    rewrite trimEnd_app; rewrite E1; [reflexivity|].
    intros E. apply app_eq_nil in E. tauto.
  - intros rest. destruct (trimEnd_head "&"%char rest eq_refl) as [r Hr].
    exists r. unfold trim. rewrite Hs.
    assert (E0 : trimEnd (id ++ "&"%char :: rest) = id ++ "&"%char :: r).
    { rewrite trimEnd_app; rewrite Hr; [reflexivity | discriminate]. }
    assert (E1 : trimEnd (mid ++ id ++ "&"%char :: rest) =
                 mid ++ id ++ "&"%char :: r).
    { rewrite trimEnd_app; rewrite E0; [reflexivity|].
      intros E. apply app_eq_nil in E. tauto. }
    rewrite trimEnd_app; rewrite E1; [reflexivity|].
    intros E. apply app_eq_nil in E. destruct E as [_ E].
    apply app_eq_nil in E. tauto.
Qed.

Lemma extract_of_trimmed (url t id : jsstring) :
  trim url = t -> recognized t ->
  first_capture [watchRe; shortRe; embedRe; vRe] t = Some id ->
  extractVideoID url = Some id.
Proof.
  intros Ht Hr Hc. subst t.
  rewrite extractVideoID_valid; [exact Hc|].
  apply validate_recognized, Hr.
Qed.

End CanonicalUrlFacts.

Section UrlExtras.

Import Regex VideoAPI Shapes.

(** X1.  White space before and after a URL changes neither the verdict of
    [validateYouTubeURL] nor the id [extractVideoID] returns. *)
Theorem url_helpers_ignore_padding (w1 url w2 : jsstring) :
  forallb is_whitespace w1 = true -> forallb is_whitespace w2 = true ->
  validateYouTubeURL (w1 ++ url ++ w2) = validateYouTubeURL url /\
  extractVideoID (w1 ++ url ++ w2) = extractVideoID url.
Proof.
  intros H1 H2. split.
  - rewrite <- (validate_trim_all (w1 ++ url ++ w2)), <- (validate_trim_all url).
    rewrite trim_padded by assumption. reflexivity.
  - rewrite <- (extract_trim_all (w1 ++ url ++ w2)), <- (extract_trim_all url).
    rewrite trim_padded by assumption. reflexivity.
Qed.

Lemma url_helpers_ignore_padding_witness :
  validateYouTubeURL (str "  " ++ str "https://youtu.be/abc123" ++ str " ") =
    validateYouTubeURL (str "https://youtu.be/abc123") /\
  extractVideoID (str "  " ++ str "https://youtu.be/abc123" ++ str " ") =
    extractVideoID (str "https://youtu.be/abc123").
Proof.
  exact (url_helpers_ignore_padding (str "  ") (str "https://youtu.be/abc123")
           (str " ") eq_refl eq_refl).
Defined.

(** X2.  For a URL of one of the four shapes that ends with its id,
    [extractVideoID] returns exactly that id; for the watch shape also when
    further parameters follow the id after an ampersand. *)
Theorem extractVideoID_canonical (scheme site id : jsstring) :
  In scheme schemes -> In site sites -> is_id id ->
  extractVideoID (scheme ++ str "://" ++ site ++ str "/watch?v=" ++ id) =
    Some id /\
  (forall rest,
     extractVideoID
       (scheme ++ str "://" ++ site ++ str "/watch?v=" ++ id ++ str "&" ++ rest) =
       Some id) /\
  extractVideoID (scheme ++ str "://youtu.be/" ++ id) = Some id /\
  extractVideoID (scheme ++ str "://" ++ site ++ str "/embed/" ++ id) = Some id /\
  extractVideoID (scheme ++ str "://" ++ site ++ str "/v/" ++ id) = Some id.
Proof.
  intros Hsc Hsi Hid.
  destruct (capture_canonical scheme site id Hsc Hsi Hid)
    as (C1 & C2 & C3 & C4 & C5).
  destruct (trim_url scheme (str "://" ++ site ++ str "/watch?v=") id Hsc Hid)
    as [Tw Twr].
  destruct (trim_url scheme (str "://youtu.be/") id Hsc Hid) as [Ts _].
  destruct (trim_url scheme (str "://" ++ site ++ str "/embed/") id Hsc Hid)
    as [Te _].
  destruct (trim_url scheme (str "://" ++ site ++ str "/v/") id Hsc Hid)
    as [Tv _].
  rewrite <- !app_assoc in Tw, Te, Tv.
  pose proof (watch_form scheme site id [] Hsc Hsi Hid) as Rw.
  pose proof (short_form scheme id [] Hsc Hid) as Rs.
  pose proof (embed_form scheme site id [] Hsc Hsi Hid) as Re.
  pose proof (v_form scheme site id [] Hsc Hsi Hid) as Rv.
  rewrite app_nil_r in Rw, Rs, Re, Rv.
  split; [|split; [|split; [|split]]].
  - exact (extract_of_trimmed _ _ id Tw Rw C1).
  - intros rest. destruct (Twr rest) as [r Hr].
    rewrite <- !app_assoc in Hr.
    exact (extract_of_trimmed _ _ id Hr
             (watch_form scheme site id ("&"%char :: r) Hsc Hsi Hid) (C2 r)).
  - exact (extract_of_trimmed _ _ id Ts Rs C3).
  - exact (extract_of_trimmed _ _ id Te Re C4).
  - exact (extract_of_trimmed _ _ id Tv Rv C5).
Qed.

Lemma extractVideoID_canonical_witness :
  extractVideoID (str "http://www.youtube.com/watch?v=dQw4w9WgXcQ&list=PL 1") =
    Some (str "dQw4w9WgXcQ") /\
  extractVideoID (str "https://www.youtube.com/embed/a-b_9") = Some (str "a-b_9").
Proof.
  pose proof (extractVideoID_canonical (str "http") (str "www.youtube.com")
                (str "dQw4w9WgXcQ") in_schemes_http in_sites_www
                (conj (fun H => eq_ind (str "dQw4w9WgXcQ")
                                  (fun l => match l with [] => False | _ :: _ => True end)
                                  I [] H)
                      eq_refl)) as H1.
  pose proof (extractVideoID_canonical (str "https") (str "www.youtube.com")
                (str "a-b_9") in_schemes_https in_sites_www
                (conj (fun H => eq_ind (str "a-b_9")
                                  (fun l => match l with [] => False | _ :: _ => True end)
                                  I [] H)
                      eq_refl)) as H2.
  split.
  - exact (proj1 (proj2 H1) (str "list=PL 1")).
  - exact (proj1 (proj2 (proj2 (proj2 H2)))).
Defined.



End UrlExtras.

(* ------------------------------------------------------------------ *)
(** ** More on the controller *)

Section ControllerMoreFacts.

Import VideoAPI VideoDownloadApp Shapes.

Variable api : VideoAPI.t.
Variable backend : Backend.

Lemma getVideoPreview_network (url : jsstring) (st : State) :
  network (getVideoPreview api backend url st) =
  network st ++ [getVideoPreview_request api url].
Proof.
  unfold getVideoPreview. cbv zeta.
  destruct (makeRequest _) as [e|v]; [reflexivity|].
  unfold displayVideoPreview, generateQualityButtons.
  cbn [with_elements elements set_videoDetails set_qualityButtons qualityButtons].
  destruct (map button_of_format (formats v)); reflexivity.
Qed.

Lemma getVideoPreview_regions (url : jsstring) (st : State) :
  match preview_promise api backend url with
  | Rejected _ => visible_regions (getVideoPreview api backend url st) = [ErrorRegion]
  | Fulfilled _ => visible_regions (getVideoPreview api backend url st) = [PreviewRegion]
  end.
Proof.
  unfold getVideoPreview, preview_promise. cbv zeta.
  destruct (makeRequest _) as [e|v]; reflexivity.
Qed.

Lemma handleError_nonempty (e : VideoAPI.Error) : handleError e <> [].
Proof.
  unfold handleError. cbv zeta.
  repeat match goal with
         | |- context [if ?c then _ else _] => destruct c
         end; discriminate.
Qed.

Lemma or_default_nonempty (o : option jsstring) (d : jsstring) :
  d <> [] -> or_default o d <> [].
Proof. intros H. destruct o as [[|c s]|]; simpl; auto; discriminate. Qed.

(** Every path of the two click handlers starts by hiding all sections, so
    the sections shown before do not matter. *)
Lemma handlePreviewClick_sections (s : Sections) (st : State) :
  handlePreviewClick api backend (with_elements (set_sections s) st) =
  handlePreviewClick api backend st.
Proof.
  unfold handlePreviewClick.
  cbn [with_elements elements set_sections videoUrl].
  destruct (trim (videoUrl (elements st))) as [|c u]; [reflexivity|].
  destruct (negb (validateYouTubeURL (c :: u))); [reflexivity|].
  unfold getVideoPreview. cbv zeta.
  destruct (makeRequest _) as [e|v]; reflexivity.
Qed.

Lemma handleDownloadClick_sections (s : Sections) (st : State) :
  handleDownloadClick api backend (with_elements (set_sections s) st) =
  handleDownloadClick api backend st.
Proof.
  unfold handleDownloadClick.
  cbn [with_elements currentVideoInfo selectedQuality].
  destruct (currentVideoInfo st); [|reflexivity].
  destruct (negb (truthy (selectedQuality st))); [reflexivity|].
  unfold downloadVideo. cbv zeta.
  cbn [addLoadingState with_elements elements set_downloadBtn_disabled
       set_sections videoUrl selectedQuality selectedFormatId].
  destruct (makeRequest _) as [e|r]; [reflexivity|].
  destruct (success r); reflexivity.
Qed.

Lemma handlePreviewClick_network (st : State) :
  network (handlePreviewClick api backend st) =
  (if validateYouTubeURL (videoUrl (elements st)) then
     network st ++
     [mkRequest (baseURL api ++ endpoint_preview) POST
        (PreviewBody (trim (videoUrl (elements st))))]
   else network st).
Proof.
  destruct (validateYouTubeURL (videoUrl (elements st))) eqn:V.
  - rewrite handlePreviewClick_valid by exact V.
    rewrite getVideoPreview_network.
    unfold getVideoPreview_request, request. rewrite trim_idem. reflexivity.
  - unfold handlePreviewClick.
    destruct (trim (videoUrl (elements st))) as [|c u] eqn:E; [reflexivity|].
    rewrite <- E, validate_trim, V by (rewrite E; discriminate). reflexivity.
Qed.

(** What a fulfilled preview without formats leaves of the selection. *)
Lemma getVideoPreview_no_formats (url : jsstring) (st : State)
  (videoInfo : VideoInfo) :
  preview_promise api backend url = Fulfilled videoInfo ->
  formats videoInfo = [] ->
  let st' := getVideoPreview api backend url st in
  currentVideoInfo st' = Some videoInfo /\
  selectedQuality st' = selectedQuality st /\
  selectedFormatId st' = selectedFormatId st /\
  videoUrl (elements st') = videoUrl (elements st).
Proof.
  intros Hp Hf. unfold preview_promise in Hp. cbv zeta.
  unfold getVideoPreview. cbv zeta. rewrite Hp.
  unfold displayVideoPreview. rewrite Hf. repeat split.
Qed.

Lemma preview_regions_cases (st : State) :
  visible_regions (handlePreviewClick api backend st) = [ErrorRegion] \/
  visible_regions (handlePreviewClick api backend st) = [PreviewRegion].
Proof.
  unfold handlePreviewClick.
  destruct (trim (videoUrl (elements st))) as [|c u]; [left; reflexivity|].
  destruct (negb (validateYouTubeURL (c :: u))); [left; reflexivity|].
  pose proof (getVideoPreview_regions (c :: u) st) as R.
  destruct (preview_promise api backend (c :: u)); auto.
Qed.


Lemma format_of_button (f : Format) :
  mkFormat (data_quality (button_of_format f))
    (data_formatId (button_of_format f))
    (data_filesize (button_of_format f)) = f.
Proof. destruct f; reflexivity. Qed.

End ControllerMoreFacts.

Section ControllerExtras.

Import VideoAPI VideoDownloadApp Shapes.

(** X4.  A preview submission issues exactly one request when the content
    of the URL field passes the validation and none otherwise; the request
    is a POST to the preview endpoint whose [url] is the trimmed field
    content, which has a recognized shape.  The handler always ends with
    exactly one region visible, the error region or the preview region. *)
Theorem preview_click_request (api : VideoAPI.t) (backend : Backend)
  (st : State) :
  let v := videoUrl (elements st) in
  let st' := handlePreviewClick api backend st in
  network st' =
    (if validateYouTubeURL v then
       network st ++
       [mkRequest (baseURL api ++ endpoint_preview) POST (PreviewBody (trim v))]
     else network st) /\
  (validateYouTubeURL v = true -> recognized (trim v)) /\
  (visible_regions st' = [ErrorRegion] \/ visible_regions st' = [PreviewRegion]).
Proof.
  cbv zeta. split; [|split].
  - apply handlePreviewClick_network.
  - apply validate_recognized.
  - apply preview_regions_cases.
Qed.

Lemma preview_click_request_witness :
  recognized (trim (videoUrl (elements (type_url (str " https://youtu.be/abc ")
                                          Sample.page)))).
Proof.
  exact (proj1 (proj2 (preview_click_request VideoAPI.new Sample.server_up
                         (type_url (str " https://youtu.be/abc ") Sample.page)))
           eq_refl).
Defined.

(** X5.  When the preview request is fulfilled, the response is stored, the
    buttons are the formats in the order received, and only the preview
    region is visible: the download options shown by the automatic selection
    are hidden again.  With at least one format the first button alone is
    selected and the selection and its summary are those of the first
    format; with no format there is no button and the selection and the
    summary stay what they were. *)
Theorem preview_fulfilled_rendering (api : VideoAPI.t) (backend : Backend)
  (url : jsstring) (st : State) (videoInfo : VideoInfo) :
  preview_promise api backend url = Fulfilled videoInfo ->
  let st' := getVideoPreview api backend url st in
  let e' := elements st' in
  currentVideoInfo st' = Some videoInfo /\
  visible_regions st' = [PreviewRegion] /\
  hidden st' DownloadRegion = true /\
  map (fun b => mkFormat (data_quality b) (data_formatId b) (data_filesize b))
    (qualityButtons e') = formats videoInfo /\
  videoViews e' = formatNumber (view_count videoInfo) ++ str " views" /\
  videoLikes e' = formatNumber (like_count videoInfo) ++ str " likes" /\
  match formats videoInfo with
  | f :: fs =>
      map selected (qualityButtons e') = true :: map (fun _ => false) fs /\
      selectedQuality st' = Some (quality f) /\
      selectedFormatId st' = Some (format_id f) /\
      selectedQualitySpan e' = str "Quality: " ++ quality f /\
      fileSizeSpan e' = str "Size: " ++ filesize_formatted f
  | [] =>
      qualityButtons e' = [] /\
      selectedQuality st' = selectedQuality st /\
      selectedFormatId st' = selectedFormatId st /\
      selectedQualitySpan e' = selectedQualitySpan (elements st) /\
      fileSizeSpan e' = fileSizeSpan (elements st)
  end.
Proof.
  intros Hp. unfold preview_promise in Hp. cbv zeta.
  unfold getVideoPreview. cbv zeta. rewrite Hp.
  unfold displayVideoPreview.
  destruct (formats videoInfo) as [|f fs] eqn:Hf.
  - repeat split.
  - repeat split.
    + cbn. f_equal; [destruct f; reflexivity|].
      rewrite !map_map.
      rewrite <- (map_id fs) at 2. apply map_ext. intros g. destruct g; reflexivity.
    + cbn. f_equal. rewrite !map_map. reflexivity.
Qed.

Lemma preview_fulfilled_rendering_witness :
  visible_regions Sample.previewed = [PreviewRegion] /\
  map selected (qualityButtons (elements Sample.previewed)) = [true; false].
Proof.
  pose proof (preview_fulfilled_rendering VideoAPI.new Sample.server_up
                Sample.url1 (type_url Sample.url1 Sample.page) Sample.info
                eq_refl) as H.
  split.
  - exact (proj1 (proj2 H)).
  - exact (proj1 (proj2 (proj2 (proj2 (proj2 (proj2 (proj2 H))))))).
Defined.

(** X6.  A fulfilled preview that lists no format replaces the stored
    preview but keeps the selection made for the previous one: a download
    confirmed next sends the old quality and format id with the content of
    the URL field. *)
Theorem empty_formats_keep_selection (api : VideoAPI.t) (backend : Backend)
  (url : jsstring) (st : State) (videoInfo : VideoInfo) :
  preview_promise api backend url = Fulfilled videoInfo ->
  formats videoInfo = [] ->
  truthy (selectedQuality st) = true ->
  let st1 := getVideoPreview api backend url st in
  currentVideoInfo st1 = Some videoInfo /\
  network (handleDownloadClick api backend st1) =
  network st ++
  [getVideoPreview_request api url;
   mkRequest (baseURL api ++ endpoint_download) POST
     (DownloadBody (trim (videoUrl (elements st)))
        (selectedQuality st) (selectedFormatId st))].
Proof.
  intros Hp Hf Hq. cbv zeta.
  destruct (getVideoPreview_no_formats api backend url st videoInfo Hp Hf)
    as (Hc & Hsq & Hsf & Hu).
  cbv zeta in Hc, Hsq, Hsf, Hu.
  split; [exact Hc|].
  rewrite handleDownloadClick_ready;
    [| rewrite Hc; discriminate | rewrite Hsq; exact Hq].
  rewrite downloadVideo_network, getVideoPreview_network, Hsq, Hsf, Hu.
  rewrite <- app_assoc. reflexivity.
Qed.

Lemma empty_formats_keep_selection_witness :
  let bare := mkBackend
                (fun _ => Ok (mkVideoInfo [] [] [] 0 0 [] []))
                (fun _ => Aborted) in
  map req_body
    (network
       (handleDownloadClick VideoAPI.new bare
          (getVideoPreview VideoAPI.new bare Sample.url2
             (type_url Sample.url2 Sample.previewed)))) =
  [PreviewBody Sample.url1; PreviewBody Sample.url2;
   DownloadBody Sample.url2 (Some (str "1080p")) (Some (str "f1"))].
Proof.
  exact (f_equal (map req_body)
           (proj2 (empty_formats_keep_selection VideoAPI.new
                     (mkBackend
                        (fun _ => Ok (mkVideoInfo [] [] [] 0 0 [] []))
                        (fun _ => Aborted))
                     Sample.url2 (type_url Sample.url2 Sample.previewed)
                     (mkVideoInfo [] [] [] 0 0 [] [])
                     eq_refl eq_refl eq_refl))).
Defined.

(** X7.  Of two selections in a row only the second counts: the state is
    the one the second selection alone gives.  A selection changes neither
    the number of buttons nor their order nor their data. *)
Theorem selection_last_wins (st : State) (i j : nat) (bi bj : Button) :
  nth_error (qualityButtons (elements st)) i = Some bi ->
  nth_error (qualityButtons (elements st)) j = Some bj ->
  handleQualitySelection j (handleQualitySelection i st) =
    handleQualitySelection j st /\
  map remove_selected (qualityButtons (elements (handleQualitySelection i st))) =
    map remove_selected (qualityButtons (elements st)).
Proof.
  intros Hi Hj.
  rewrite (handleQualitySelection_unfold st i bi Hi). cbv zeta.
  split.
  - assert (Hj' : nth_error
                    (update_nth i add_selected
                       (map remove_selected (qualityButtons (elements st)))) j =
                  Some (if Nat.eqb i j then add_selected bj
                        else remove_selected bj)).
    { destruct (Nat.eqb_spec i j) as [->|N].
      - rewrite Hi in Hj. injection Hj as ->. apply nth_error_marked, Hi.
      - apply nth_error_unmarked; assumption. }
    erewrite handleQualitySelection_unfold by exact Hj'.
    rewrite (handleQualitySelection_unfold st j bj Hj). cbv zeta.
    cbn [elements qualityButtons sections currentVideoInfo network videoUrl
         loadingSection previewSection errorSection successSection
         downloadBtn_disabled downloadLink_href downloadLink_download
         videoThumbnail_src videoThumbnail_alt videoTitle videoUploader
         videoDuration videoViews videoLikes errorMessage].
    rewrite remark_cleared.
    destruct (Nat.eqb i j); reflexivity.
  - cbn [elements qualityButtons]. apply remark_cleared.
Qed.

Lemma selection_last_wins_witness :
  handleQualitySelection 0 (handleQualitySelection 1 Sample.previewed) =
  handleQualitySelection 0 Sample.previewed.
Proof.
  exact (proj1 (selection_last_wins Sample.previewed 1 0
                  (mkButton (str "720p") (str "f2") (str "30MB") false)
                  (mkButton (str "1080p") (str "f1") (str "50MB") true)
                  eq_refl eq_refl)).
Defined.

(** X8.  Whatever the server does, [downloadVideo] issues exactly one
    request and leaves the download button enabled, also when it was
    disabled before. *)
Theorem download_cleanup (api : VideoAPI.t) (backend : Backend) (st : State) :
  downloadBtn_disabled (elements (downloadVideo api backend st)) = false /\
  List.length (network (downloadVideo api backend st)) =
    S (List.length (network st)).
Proof.
  split.
  - unfold downloadVideo. cbv zeta. reflexivity.
  - rewrite downloadVideo_network, length_app. simpl. lia.
Qed.

(** X9.  When a click handler ends in the Error state, the message it shows
    is not empty. *)
Theorem error_message_nonempty (api : VideoAPI.t) (backend : Backend)
  (st : State) :
  (visible_regions (handlePreviewClick api backend st) = [ErrorRegion] ->
   errorMessage (elements (handlePreviewClick api backend st)) <> []) /\
  (visible_regions (handleDownloadClick api backend st) = [ErrorRegion] ->
   errorMessage (elements (handleDownloadClick api backend st)) <> []).
Proof.
  split.
  - unfold handlePreviewClick.
    destruct (trim (videoUrl (elements st))) as [|c u]; [discriminate|].
    destruct (negb (validateYouTubeURL (c :: u))); [discriminate|].
    unfold getVideoPreview. cbv zeta.
    destruct (makeRequest _) as [e|v].
    + intros _. apply handleError_nonempty.
    + discriminate.
  - unfold handleDownloadClick.
    destruct (currentVideoInfo st); [|discriminate].
    destruct (negb (truthy (selectedQuality st))); [discriminate|].
    unfold downloadVideo. cbv zeta.
    destruct (makeRequest _) as [e|r].
    + intros _. apply handleError_nonempty.
    + destruct (success r); [discriminate|].
      intros _. apply or_default_nonempty. discriminate.
Qed.

Lemma error_message_nonempty_witness :
  errorMessage
    (elements (handlePreviewClick VideoAPI.new Sample.server_down
                 (type_url Sample.url1 Sample.page))) <> [] /\
  errorMessage
    (elements (handleDownloadClick VideoAPI.new Sample.server_refusing
                 Sample.previewed)) <> [].
Proof.
  split.
  - exact (proj1 (error_message_nonempty VideoAPI.new Sample.server_down
                    (type_url Sample.url1 Sample.page)) eq_refl).
  - exact (proj2 (error_message_nonempty VideoAPI.new Sample.server_refusing
                    Sample.previewed) eq_refl).
Defined.

(** X10.  The outcome of a preview submission or a download confirmation
    does not depend on the sections visible before; a retry, which only
    hides sections and issues no request, therefore changes nothing for the
    next click.  After [reset] both clicks are rejected without a
    request. *)
Theorem clicks_after_retry_and_reset (api : VideoAPI.t) (backend : Backend)
  (st : State) :
  (forall s,
     handlePreviewClick api backend (with_elements (set_sections s) st) =
       handlePreviewClick api backend st) /\
  (forall s,
     handleDownloadClick api backend (with_elements (set_sections s) st) =
       handleDownloadClick api backend st) /\
  network (handleRetryClick st) = network st /\
  visible_regions (handleRetryClick st) = [] /\
  handlePreviewClick api backend (handleRetryClick st) =
    handlePreviewClick api backend st /\
  handleDownloadClick api backend (handleRetryClick st) =
    handleDownloadClick api backend st /\
  ui_state (reset st) = Some Idle /\
  handlePreviewClick api backend (reset st) =
    showError (str "Please enter a YouTube video URL") (reset st) /\
  handleDownloadClick api backend (reset st) =
    showError (str "Please select a video quality first") (reset st) /\
  network (handlePreviewClick api backend (reset st)) = network st /\
  network (handleDownloadClick api backend (reset st)) = network st.
Proof.
  split; [exact (fun s => handlePreviewClick_sections api backend s st)|].
  split; [exact (fun s => handleDownloadClick_sections api backend s st)|].
  split; [reflexivity|].
  split; [reflexivity|].
  split; [exact (handlePreviewClick_sections api backend _ st)|].
  split; [exact (handleDownloadClick_sections api backend _ st)|].
  repeat split.
Qed.

End ControllerExtras.

(* ------------------------------------------------------------------ *)
(** ** More on the client: errors, download links, the backend URL *)

Section ClientMoreFacts.

Import VideoAPI Uri.

Lemma includes_unfold (s sub : jsstring) :
  includes s sub =
  startsWith s sub ||
  match s with [] => false | _ :: s' => includes s' sub end.
Proof. destruct s; reflexivity. Qed.

Lemma includes_app (a sub b : jsstring) : includes (a ++ sub ++ b) sub = true.
Proof.
  induction a as [|x a IH]; simpl.
  - rewrite includes_unfold. unfold startsWith. rewrite strip_prefix_app.
    reflexivity.
  - rewrite IH. apply orb_true_r.
Qed.

Lemma includes_found (s sub : jsstring) :
  includes s sub = true -> exists a b, s = a ++ sub ++ b.
Proof.
  induction s as [|x s IH]; simpl; unfold startsWith.
  - destruct (strip_prefix sub []) as [r|] eqn:E; [|discriminate].
    intros _. apply strip_prefix_Some in E. exists [], r. exact E.
  - destruct (strip_prefix sub (x :: s)) as [r|] eqn:E.
    + intros _. apply strip_prefix_Some in E. exists [], r. exact E.
    + simpl. intros H. destruct (IH H) as (a & b & ->).
      exists (x :: a), b. reflexivity.
Qed.

Lemma encodeURIComponent_cons (c : ascii) (s : jsstring) :
  encodeURIComponent (c :: s) = encode_char c ++ encodeURIComponent s.
Proof. reflexivity. Qed.

Lemma encode_char_safe (c : ascii) : forallb uri_safe (encode_char c) = true.
Proof. destruct c as [[] [] [] [] [] [] [] []]; vm_compute; reflexivity. Qed.

Lemma decode_encode_char (c : ascii) (r : jsstring) :
  decode_head (encode_char c ++ r) = Some (c, r).
Proof. destruct c as [[] [] [] [] [] [] [] []]; reflexivity. Qed.

Lemma encode_char_nonempty (c : ascii) : encode_char c <> [].
Proof. destruct c as [[] [] [] [] [] [] [] []]; vm_compute; discriminate. Qed.

Lemma encodeURIComponent_injective (s1 s2 : jsstring) :
  encodeURIComponent s1 = encodeURIComponent s2 -> s1 = s2.
Proof.
  revert s2. induction s1 as [|c1 s1 IH]; intros [|c2 s2] H.
  - reflexivity.
  - rewrite encodeURIComponent_cons in H.
    pose proof (encode_char_nonempty c2). simpl in H.
    destruct (encode_char c2); [congruence | discriminate].
  - rewrite encodeURIComponent_cons in H.
    pose proof (encode_char_nonempty c1). simpl in H.
    destruct (encode_char c1); [congruence | discriminate].
  - rewrite !encodeURIComponent_cons in H.
    apply (f_equal decode_head) in H. rewrite !decode_encode_char in H.
    injection H as -> H. f_equal. apply IH, H.
Qed.

End ClientMoreFacts.

Section ClientExtras.

Import VideoAPI Uri.

(** X11.  [handleError] answers "Request timed out. ..." exactly for the
    errors whose message contains "timeout" somewhere, whatever else the
    message says; the error [makeRequest] raises when its timer aborts the
    request is one of them, for any kind of response body. *)
Theorem handleError_timeout (e : VideoAPI.Error) :
  (handleError e =
     str "Request timed out. Please check your connection and try again." <->
   exists a b, message e = Some (a ++ str "timeout" ++ b)) /\
  (forall (A : Type) (err : VideoAPI.Error),
     makeRequest (@Aborted A) = Rejected err ->
     handleError err =
       str "Request timed out. Please check your connection and try again.").
Proof.
  split.
  - split.
    + intros H. unfold handleError in H. cbv zeta in H.
      destruct (includes _ (str "timeout")) eqn:I.
      * destruct (message e) as [[|c s]|];
          [vm_compute in I; discriminate I | | vm_compute in I; discriminate I].
        apply includes_found in I. destruct I as (a & b & I).
        exists a, b. simpl in I. rewrite I. reflexivity.
      * exfalso. revert H.
        repeat match goal with
               | |- context [if ?c then _ else _] => destruct c
               end; intros H; vm_compute in H; discriminate H.
    + intros (a & b & H). unfold handleError. cbv zeta. rewrite H.
      assert (N : or_default (Some (a ++ str "timeout" ++ b))
                    (str "An unknown error occurred") =
                  a ++ str "timeout" ++ b).
      { destruct a; reflexivity. }
      rewrite N, includes_app. reflexivity.
  - intros A err H. simpl in H. injection H as <-. reflexivity.
Qed.

Lemma handleError_timeout_witness :
  handleError
    (mkError (Some (str "HTTP 500: upstream timeout while fetching Copyright"))) =
  str "Request timed out. Please check your connection and try again.".
Proof.
  exact (proj2 (proj1 (handleError_timeout
                         (mkError (Some (str "HTTP 500: upstream timeout while fetching Copyright")))))
           (ex_intro _ (str "HTTP 500: upstream ")
              (ex_intro _ (str " while fetching Copyright") eq_refl))).
Defined.

(** X12.  The download URL is the base URL, "/downloads/" and the encoded
    file name.  The encoded name is made of letters, digits, the marks
    [-_.!~*'()] and the percent sign only, so it holds no slash, question
    mark, number sign, ampersand or space; and two different file names
    never give the same URL. *)
Theorem getDownloadURL_encoding (api : VideoAPI.t) (f1 f2 : jsstring) :
  getDownloadURL api (Some f1) =
    baseURL api ++ str "/downloads/" ++ encodeURIComponent f1 /\
  forallb uri_safe (encodeURIComponent f1) = true /\
  (forall c, In c (str "/?#& ") -> ~ In c (encodeURIComponent f1)) /\
  (getDownloadURL api (Some f1) = getDownloadURL api (Some f2) -> f1 = f2).
Proof.
  assert (S : forallb uri_safe (encodeURIComponent f1) = true).
  { induction f1 as [|c s IH]; [reflexivity|].
    rewrite encodeURIComponent_cons, forallb_app, encode_char_safe, IH.
    reflexivity. }
  split; [reflexivity|]. split; [exact S|]. split.
  - intros c Hc Hin.
    pose proof (proj1 (forallb_forall _ _) S c Hin) as Hs.
    simpl in Hc.
    repeat (destruct Hc as [<-|Hc]; [vm_compute in Hs; discriminate Hs|]).
    exact Hc.
  - unfold getDownloadURL. simpl to_string. intros H.
    apply app_inv_head in H. apply app_inv_head in H.
    apply encodeURIComponent_injective, H.
Qed.

Lemma getDownloadURL_encoding_witness :
  getDownloadURL VideoAPI.new (Some (str "a b/c.mp4")) =
    baseURL VideoAPI.new ++ str "/downloads/a%20b%2Fc.mp4" /\
  str "x.mp4" = str "x.mp4".
Proof.
  split.
  - exact (proj1 (getDownloadURL_encoding VideoAPI.new (str "a b/c.mp4") [])).
  - exact (proj2 (proj2 (proj2 (getDownloadURL_encoding VideoAPI.new
                                  (str "x.mp4") (str "x.mp4")))) eq_refl).
Defined.

(** X13.  [setBackendURL] removes one slash at the end of the URL and
    nothing else: a URL given with a final slash and the same URL given
    without it lead to the same requests, the endpoint following the URL
    directly. *)
Theorem setBackendURL_trailing_slash (url : jsstring) (c : ascii) :
  baseURL (setBackendURL (url ++ str "/")) = url /\
  (c <> "/"%char -> baseURL (setBackendURL (url ++ [c])) = url ++ [c]) /\
  baseURL (setBackendURL []) = [] /\
  (forall u quality formatId,
     req_url (downloadVideo_request (setBackendURL (url ++ str "/")) u
                quality formatId) =
     url ++ str "/download").
Proof.
  assert (E : baseURL (setBackendURL (url ++ str "/")) = url).
  { unfold setBackendURL. rewrite rev_app_distr. simpl.
    apply rev_involutive. }
  split; [exact E|]. split; [|split].
  - intros Hc. unfold setBackendURL. rewrite rev_app_distr. simpl.
    destruct (ascii_eqb c "/") eqn:Q; [|reflexivity].
    apply Ascii.eqb_eq in Q. contradiction.
  - reflexivity.
  - intros u quality formatId. unfold downloadVideo_request, request.
    cbn [req_url]. rewrite E. reflexivity.
Qed.

Lemma setBackendURL_trailing_slash_witness :
  baseURL (setBackendURL (str "https://api.example.com")) =
  str "https://api.example.com".
Proof.
  apply (proj1 (proj2 (setBackendURL_trailing_slash
                         (str "https://api.example.co") "m"%char))).
  discriminate.
Defined.

End ClientExtras.

(* ------------------------------------------------------------------ *)
(** ** The loading state of a button, the style sheets, the clipboard *)

Section AnimationFacts.

Import AnimationManager.







End AnimationFacts.

Section AnimationExtras.

Import VideoAPI VideoDownloadApp AnimationManager.

(** X14.  Putting a button in the loading state disables it and shows the
    spinner; removing the state enables it and restores the content it had,
    except that a button without content comes back with the text "Button".
    Removing the state from a button that was never put in it replaces its
    content by "Button" too. *)
Theorem loading_state_round (b : ButtonElement) (doc : Document) :
  fst (addLoadingState (Some b) (innerHTML b) doc) =
    Some (mkButtonElement true spinner_html (Some (innerHTML b))) /\
  (innerHTML b <> [] ->
   fst (loading_round b doc) = Some (mkButtonElement false (innerHTML b) None)) /\
  (innerHTML b = [] ->
   fst (loading_round b doc) = Some (mkButtonElement false (str "Button") None)) /\
  (originalText b = None ->
   removeLoadingState (Some b) = Some (mkButtonElement false (str "Button") None)) /\
  removeLoadingState None = None.
Proof.
  split; [reflexivity|]. split; [|split; [|split]].
  - intros H. unfold loading_round. simpl.
    destruct (innerHTML b); [congruence | reflexivity].
  - intros H. unfold loading_round. simpl. rewrite H. reflexivity.
  - intros H. simpl. rewrite H. reflexivity.
  - reflexivity.
Qed.

Lemma loading_state_round_witness :
  fst (loading_round (mkButtonElement false (str "Download") None) []) =
    Some (mkButtonElement false (str "Download") None) /\
  fst (loading_round (mkButtonElement true [] None) []) =
    Some (mkButtonElement false (str "Button") None) /\
  removeLoadingState (Some (mkButtonElement false (str "Download") None)) =
    Some (mkButtonElement false (str "Button") None).
Proof.
  split; [|split].
  - apply (proj1 (proj2 (loading_state_round
                           (mkButtonElement false (str "Download") None) []))).
    discriminate.
  - exact (proj1 (proj2 (proj2 (loading_state_round
                                  (mkButtonElement true [] None) [])))
             eq_refl).
  - exact (proj1 (proj2 (proj2 (proj2 (loading_state_round
                                         (mkButtonElement false (str "Download") None) []))))
             eq_refl).
Defined.



(** X16.  A paste of text that fails the validation, or a clipboard that
    cannot be read, changes nothing and sends nothing.  No paste sends more
    than one request, and a paste of text that passes the validation before
    and after it is put in the field sends the preview request for it. *)
Theorem paste_guard (api : VideoAPI.t) (backend : Backend)
  (value_after_set : jsstring -> jsstring) (clipboard : option jsstring)
  (st : State) :
  let st' := Paste.handlePaste api backend value_after_set clipboard st in
  (clipboard = None \/
   (exists text, clipboard = Some text /\ validateYouTubeURL text = false) ->
   st' = st) /\
  (exists l, network st' = network st ++ l /\ List.length l <= 1) /\
  (forall text, clipboard = Some text ->
     validateYouTubeURL text = true ->
     validateYouTubeURL (value_after_set text) = true ->
     network st' =
       network st ++
       [mkRequest (baseURL api ++ endpoint_preview) POST
          (PreviewBody (trim (value_after_set text)))]).
Proof.
  cbv zeta.
  assert (N : forall s,
            exists l, network (handlePreviewClick api backend s) = network s ++ l /\
                      List.length l <= 1).
  { intros s. rewrite handlePreviewClick_network.
    destruct (validateYouTubeURL (videoUrl (elements s))).
    - eexists. split; [reflexivity | simpl; lia].
    - exists []. rewrite app_nil_r. split; [reflexivity | simpl; lia]. }
  split; [|split].
  - intros [->|(text & -> & Hv)]; simpl; [reflexivity|]. rewrite Hv. reflexivity.
  - destruct clipboard as [text|]; simpl.
    + destruct (validateYouTubeURL text).
      * exact (N (type_url (value_after_set text) st)).
      * exists []. rewrite app_nil_r. split; [reflexivity | simpl; lia].
    + exists []. rewrite app_nil_r. split; [reflexivity | simpl; lia].
  - intros text -> Hv Hv'. simpl. rewrite Hv.
    rewrite handlePreviewClick_network.
    cbn [type_url with_elements elements set_videoUrl videoUrl network].
    rewrite Hv'. reflexivity.
Qed.

Lemma paste_guard_witness :
  Paste.handlePaste VideoAPI.new Sample.server_up (fun v => v)
    (Some (str "hello")) Sample.page = Sample.page /\
  map req_body
    (network
       (Paste.handlePaste VideoAPI.new Sample.server_up (fun v => v)
          (Some Sample.url1) Sample.page)) = [PreviewBody Sample.url1].
Proof.
  split.
  - exact (proj1 (paste_guard VideoAPI.new Sample.server_up (fun v => v)
                    (Some (str "hello")) Sample.page)
             (or_intror (ex_intro _ (str "hello") (conj eq_refl eq_refl)))).
  - exact (f_equal (map req_body)
             (proj2 (proj2 (paste_guard VideoAPI.new Sample.server_up
                              (fun v => v) (Some Sample.url1) Sample.page))
                Sample.url1 eq_refl eq_refl eq_refl)).
Defined.

End AnimationExtras.

(* ------------------------------------------------------------------ *)
(** ** More on number formatting: how close the printed value is *)

Section NumberMoreFacts.

Import Number VideoAPI.

Local Open Scope Z_scope.

Lemma shr_fexp_value (p : positive) (e : Z) (l : location) :
  two52 <= Zpos p < two54 -> -1021 <= e ->
  exists mrs' p' s,
    shr_fexp prec emax (Zpos p) e l = (mrs', e + s) /\
    shr_m mrs' = Zpos p' /\ two52 <= Zpos p' < two53 /\
    (s = 0 /\ p' = p /\ mrs' = shr_record_of_loc (Zpos p) l \/
     s = 1 /\ 0 <= Zpos p - 2 * Zpos p' <= 1).
Proof.
  intros Hp He. unfold shr_fexp, fexp, emin, prec, emax. simpl Zdigits2.
  destruct (Z.lt_ge_cases (Zpos p) two53) as [H|H].
  - assert (D : Zpos (digits2_pos p) = 53) by (apply digits_53; lia).
    rewrite D.
    replace (Z.max (53 + e - 53) (3 - 1024 - 53) - e) with 0 by lia.
    exists (shr_record_of_loc (Zpos p) l), p, 0. simpl.
    destruct (loc_of_shr_record_of_loc (Zpos p) l) as [_ ->].
    rewrite Z.add_0_r.
    split; [reflexivity|]. split; [reflexivity|]. split; [lia|]. left. auto.
  - assert (D : Zpos (digits2_pos p) = 54) by (apply digits_54; lia).
    rewrite D.
    replace (Z.max (54 + e - 53) (3 - 1024 - 53) - e) with 1 by lia.
    unfold shr. simpl iter_pos.
    unfold two52, two53, two54 in *.
    destruct p as [q|q|]; [| |lia].
    + exists (shr_1 (shr_record_of_loc (Zpos q~1) l)), q, 1.
      split; [reflexivity|].
      split; [destruct l as [|[]]; reflexivity|].
      split; [lia|]. right. lia.
    + exists (shr_1 (shr_record_of_loc (Zpos q~0) l)), q, 1.
      split; [reflexivity|].
      split; [destruct l as [|[]]; reflexivity|].
      split; [lia|]. right. lia.
Qed.

Lemma round_nearest_even_value (p : positive) (l : location) :
  two52 <= Zpos p < two53 ->
  exists p', round_nearest_even (Zpos p) l = Zpos p' /\
             two52 <= Zpos p' < two54 /\ 0 <= Zpos p' - Zpos p <= 1 /\
             (l = loc_Exact -> p' = p).
Proof.
  intros H. unfold two52, two53, two54 in *.
  destruct l as [|[]]; unfold round_nearest_even.
  - exists p. repeat split; lia.
  - destruct (Z.even (Zpos p)).
    + exists p. repeat split; try lia.
    + exists (p + 1)%positive. repeat split; try lia; discriminate.
  - exists p. repeat split; try lia.
  - exists (p + 1)%positive. repeat split; try lia; discriminate.
Qed.

(** Rounding a mantissa of 53 or 54 bits: the result is finite, its exponent
    grows by at most 2 and its mantissa, scaled back, is within 5 of the
    given one; an exact mantissa of 53 bits is kept as it is. *)
Lemma binary_round_aux_value (p : positive) (e : Z) (l : location) :
  two52 <= Zpos p < two54 -> -1021 <= e <= 960 ->
  exists m s,
    binary_round_aux prec emax false (Zpos p) e l = S754_finite false m (e + s) /\
    0 <= s <= 2 /\ two52 <= Zpos m < two53 /\
    Z.abs (Zpos m * 2 ^ s - Zpos p) <= 5 /\
    (l = loc_Exact -> Zpos p < two53 -> m = p /\ s = 0).
Proof.
  intros Hp He. unfold binary_round_aux.
  destruct (shr_fexp_value p e l Hp) as (mrs1 & p1 & s1 & E1 & M1 & B1 & V1);
    [lia|].
  rewrite E1, M1.
  destruct (round_nearest_even_value p1 (loc_of_shr_record mrs1) B1)
    as (p2 & E2 & B2 & V2 & X2).
  rewrite E2.
  assert (Hs1 : 0 <= s1 <= 1) by (destruct V1 as [[-> _]|[-> _]]; lia).
  destruct (shr_fexp_value p2 (e + s1) loc_Exact B2)
    as (mrs3 & p3 & s3 & E3 & M3 & B3 & V3); [lia|].
  rewrite E3, M3.
  assert (Hs3 : 0 <= s3 <= 1) by (destruct V3 as [[-> _]|[-> _]]; lia).
  assert (L : (e + s1 + s3 <=? emax - prec) = true)
    by (apply Z.leb_le; unfold emax, prec; lia).
  rewrite L. exists p3, (s1 + s3). rewrite Z.add_assoc.
  split; [reflexivity|]. split; [lia|]. split; [exact B3|]. split.
  - destruct V1 as [(-> & -> & _)|(-> & V1)];
      destruct V3 as [(-> & -> & _)|(-> & V3)];
      first [ change (2 ^ (0 + 0)) with 1 | change (2 ^ (0 + 1)) with 2
            | change (2 ^ (1 + 0)) with 2 | change (2 ^ (1 + 1)) with 4 ];
      lia.
  - intros -> Hlt.
    destruct V1 as [(-> & -> & ->)|(-> & V1)];
      [|unfold two52, two53 in *; lia].
    assert (p2 = p) by (apply X2; reflexivity). subst p2.
    destruct V3 as [(-> & -> & _)|(-> & V3)]; [auto|].
    unfold two52, two53 in *. lia.
Qed.

(** A positive integer below 2^53 is converted exactly. *)
Lemma of_Z_exact (num : Z) :
  0 < num < two53 ->
  exists m k,
    of_Z num = S754_finite false m (- k) /\ 0 <= k <= 52 /\
    Zpos m = num * 2 ^ k /\ two52 <= Zpos m < two53.
Proof.
  intros H. destruct num as [|p|p]; try lia.
  unfold of_Z, binary_normalize, binary_round, shl_align, fexp, emin.
  destruct (digits_bounds p) as [Bl Bu].
  set (d := Zpos (digits2_pos p)) in *.
  assert (Hd : 1 <= d <= 53).
  { split; [unfold d; lia|].
    destruct (Z.le_gt_cases d 53) as [K|K]; [exact K|].
    assert (2 ^ 54 <= 2 ^ d) by (apply Z.pow_le_mono_r; lia).
    change (2 ^ 54) with two54 in *. unfold two53, two54 in *. lia. }
  replace (Z.max (d + 0 - prec) (3 - emax - prec) - 0) with (d - 53)
    by (unfold prec, emax; lia).
  replace (Z.max (d + 0 - prec) (3 - emax - prec)) with (d - 53)
    by (unfold prec, emax; lia).
  destruct (d - 53) as [|k|k] eqn:Ek; try lia.
  - assert (B : two52 <= Zpos p < two53).
    { assert (d = 53) by lia. unfold two52, two53 in *.
      replace d with 53 in Bl, Bu by lia.
      change (2 ^ 53) with 9007199254740992 in Bl, Bu. lia. }
    destruct (binary_round_aux_value p 0 loc_Exact) as (m & s & E & _ & _ & _ & X);
      [unfold two54, two53 in *; lia | lia |].
    destruct (X eq_refl (proj2 B)) as [-> ->].
    exists p, 0. rewrite E. simpl. repeat split; try lia.
  - assert (P : 2 ^ d * 2 ^ Zpos k = two53).
    { rewrite <- Z.pow_add_r by lia. replace (d + Zpos k) with 53 by lia.
      reflexivity. }
    assert (Pk : 0 < 2 ^ Zpos k) by (apply Z.pow_pos_nonneg; lia).
    assert (B : two52 <= Zpos (Pos.iter xO p k) < two53).
    { rewrite iter_xO. unfold two52, two53 in *. nia. }
    destruct (binary_round_aux_value (Pos.iter xO p k) (Zneg k) loc_Exact)
      as (m & s & E & _ & _ & _ & X);
      [unfold two54, two53 in *; lia | lia |].
    destruct (X eq_refl (proj2 B)) as [-> ->].
    exists (Pos.iter xO p k), (Zpos k). rewrite E.
    replace (Z.neg k + 0) with (- Zpos k) by lia.
    repeat split; try lia. apply iter_xO.
Qed.

(** The quotient of two Numbers with 53-bit mantissas: its mantissa, scaled
    back, is within 5 of the integer quotient of the mantissas. *)
Lemma div_value (mx my : positive) (ex ey : Z) :
  two52 <= Zpos mx < two53 -> two52 <= Zpos my < two53 ->
  -100 <= ex <= 100 -> -100 <= ey <= 100 ->
  exists m s q r,
    div (S754_finite false mx ex) (S754_finite false my ey) =
      S754_finite false m (ex - ey - 53 + s) /\
    0 <= s <= 2 /\
    Zpos mx * two53 = Zpos my * q + r /\ 0 <= r < Zpos my /\
    Z.abs (Zpos m * 2 ^ s - q) <= 5.
Proof.
  intros Hx Hy Hex Hey. unfold div, SFdiv, SFdiv_core_binary, fexp, emin.
  simpl Zdigits2.
  rewrite (proj2 (digits_53 mx) Hx), (proj2 (digits_53 my) Hy).
  replace (Z.min (Z.max (53 + ex - (53 + ey) - prec) (3 - emax - prec)) (ex - ey))
    with (ex - ey - 53) by (unfold prec, emax; lia).
  replace (ex - ey - (ex - ey - 53)) with 53 by lia.
  cbv iota.
  rewrite Z.shiftl_mul_pow2 by lia.
  change (2 ^ 53) with two53.
  pose proof (Z.div_eucl_eq (Zpos mx * two53) (Zpos my) ltac:(lia)) as Hq.
  pose proof (Z.mod_pos_bound (Zpos mx * two53) (Zpos my) ltac:(lia)) as Hr.
  unfold Z.modulo in Hr.
  destruct (Z.div_eucl (Zpos mx * two53) (Zpos my)) as [q r].
  assert (B : two52 <= q < two54).
  { unfold two52, two53, two54 in *. nia. }
  destruct q as [|pq|pq]; try (unfold two52 in B; lia).
  destruct (binary_round_aux_value pq (ex - ey - 53) (new_location (Zpos my) r) B)
    as (m & s & E & Hs & _ & V & _); [lia|].
  simpl xorb. exists m, s, (Zpos pq), r. rewrite E. repeat split; try lia.
Qed.

Lemma pow2_pos (k : Z) : 0 <= k -> 0 < 2 ^ k.
Proof. intros H. apply Z.pow_pos_nonneg; lia. Qed.

(** The tenths printed for a quotient are within half a tenth of it: for
    [num] and [unit_] below 2^53, with [unit_ <= num] and [num] at most
    2^52 / 120, the integer [n] printed satisfies
    [2 * |unit_ * n - 10 * num| <= unit_]. *)
Lemma quotient_accuracy (num unit_ : Z) :
  0 < unit_ -> unit_ < two53 -> 0 < num -> 120 * num <= two52 ->
  exists m e,
    div (of_Z num) (of_Z unit_) = S754_finite false m e /\
    2 * Z.abs (unit_ * nearest_tenths m e - 10 * num) <= unit_.
Proof.
  intros HU HU' Hn Hn'.
  assert (Hn53 : 0 < num < two53) by (unfold two52, two53 in *; lia).
  destruct (of_Z_exact num Hn53) as (mx & kx & -> & Hkx & Emx & Bx).
  destruct (of_Z_exact unit_ (conj HU HU')) as (my & ky & -> & Hky & Emy & By).
  destruct (div_value mx my (- kx) (- ky) Bx By) as (m & s & q & r & -> & Hs & Eq & Hr & Hq);
    try lia.
  exists m, (- kx - - ky - 53 + s). split; [reflexivity|].
  set (A := 2 ^ kx) in *. set (B := 2 ^ ky) in *.
  assert (HA : 0 < A) by (apply pow2_pos; lia).
  assert (HB : 0 < B) by (apply pow2_pos; lia).
  set (S := 2 ^ s) in *.
  assert (HS : 0 < S <= 4).
  { split; [apply pow2_pos; lia|]. unfold S.
    change 4 with (2 ^ 2). apply Z.pow_le_mono_r; lia. }
  set (t := 53 + kx - ky - s).
  assert (Ht : 1 <= t).
  { destruct (Z.le_gt_cases 1 t) as [K|K]; [exact K|]. exfalso.
    assert (P : 2 ^ (53 + kx) <= 2 ^ (ky + s))
      by (apply Z.pow_le_mono_r; unfold t in K; lia).
    rewrite !Z.pow_add_r in P by lia. change (2 ^ 53) with two53 in P.
    fold A B S in P.
    assert (Q0 : 0 < num * unit_) by nia.
    assert (Q1 : two53 * A * (num * unit_) <= B * S * (num * unit_))
      by (apply Z.mul_le_mono_nonneg_r; lia).
    assert (Q2 : B * S * (num * unit_) <= B * 4 * (num * unit_)).
    { apply Z.mul_le_mono_nonneg_r; [lia|].
      apply Z.mul_le_mono_nonneg_l; lia. }
    assert (Q3 : two53 * Zpos mx * unit_ <= 4 * Zpos my * num).
    { rewrite Emx, Emy.
      replace (two53 * (num * A) * unit_) with (two53 * A * (num * unit_)) by ring.
      replace (4 * (unit_ * B) * num) with (B * 4 * (num * unit_)) by ring.
      lia. }
    assert (Q4 : two53 * two52 * unit_ <= two53 * Zpos mx * unit_).
    { apply Z.mul_le_mono_nonneg_r; [lia|].
      apply Z.mul_le_mono_nonneg_l; unfold two53; lia. }
    assert (Q5 : 4 * Zpos my * num < 4 * two53 * num).
    { apply Z.mul_lt_mono_pos_r; lia. }
    assert (Q6 : two53 * two52 * 1 <= two53 * two52 * unit_).
    { apply Z.mul_le_mono_nonneg_l; unfold two52, two53; lia. }
    unfold two52, two53 in *. lia. }
  replace (- kx - - ky - 53 + s) with (- t) by (unfold t; lia).
  unfold nearest_tenths.
  destruct (Z.leb_spec 0 (- t)) as [K|_]; [lia|].
  rewrite Z.opp_involutive.
  replace (1 - - t) with (Z.succ t) by lia. rewrite Z.pow_succ_r by lia.
  set (T := 2 ^ t).
  assert (HT : 0 < T) by (apply pow2_pos; lia).
  assert (E1 : T * S * B = two53 * A).
  { unfold T, S, B, A. rewrite <- !Z.pow_add_r by lia.
    change two53 with (2 ^ 53). rewrite <- Z.pow_add_r by lia.
    f_equal. unfold t. lia. }
  set (n := (20 * Zpos m + T) / (2 * T)).
  pose proof (Z.div_mod (20 * Zpos m + T) (2 * T) ltac:(lia)) as Hd.
  pose proof (Z.mod_pos_bound (20 * Zpos m + T) (2 * T) ltac:(lia)) as Hm.
  fold n in Hd.
  set (w := 20 * Zpos m - 2 * T * n).
  assert (Hw : - T <= w < T) by (unfold w; lia).
  assert (E3 : 2 * T * n = 20 * Zpos m - w) by (unfold w; lia).
  set (D := unit_ * n - 10 * num).
  set (g := Zpos m * S - q) in *.
  assert (Id : 2 * (T * S * B) * D =
               20 * (unit_ * B) * g - 20 * r - unit_ * S * B * w).
  { transitivity (unit_ * S * B * (2 * T * n) - 20 * (num * (T * S * B)));
      [unfold D; ring|].
    rewrite E3, E1.
    transitivity (20 * (unit_ * B) * (Zpos m * S) - unit_ * S * B * w -
                  20 * (num * A * two53)); [ring|].
    rewrite <- Emx, Eq, Emy. unfold g. ring. }
  set (P := T * S * B) in *.
  assert (HP : 0 < P) by (unfold P; nia).
  assert (Big : 120 * (unit_ * B) < P).
  { assert (P * num = two53 * Zpos mx) by (rewrite E1, Emx; ring).
    assert (R1 : Zpos my * (120 * num) <= Zpos my * two52)
      by (apply Z.mul_le_mono_nonneg_l; lia).
    assert (R2 : Zpos my * two52 < two53 * two52)
      by (apply Z.mul_lt_mono_pos_r; unfold two52; lia).
    assert (R3 : two53 * two52 <= two53 * Zpos mx)
      by (apply Z.mul_le_mono_nonneg_l; unfold two53; lia).
    assert (R4 : 120 * (unit_ * B) * num < P * num).
    { rewrite <- Emy.
      replace (120 * Zpos my * num) with (Zpos my * (120 * num)) by ring. lia. }
    apply (Z.mul_lt_mono_pos_r num); [lia | exact R4]. }
  assert (G1 : Z.abs (20 * (unit_ * B) * g) <= 100 * (unit_ * B)).
  { assert (0 < unit_ * B) by nia. nia. }
  assert (G2 : Z.abs (unit_ * S * B * w) <= unit_ * P).
  { assert (0 < unit_ * S * B) by nia.
    assert (unit_ * P = unit_ * S * B * T) by (unfold P; ring). nia. }
  assert (G3 : 0 <= 20 * r < 20 * (unit_ * B)) by (rewrite <- Emy; lia).
  assert (X : Z.abs (2 * P * D) <= 120 * (unit_ * B) + unit_ * P) by lia.
  destruct (Z.le_gt_cases (2 * Z.abs D) unit_) as [K|K]; [exact K|].
  exfalso.
  assert (Z.abs (2 * P * D) = P * (2 * Z.abs D)).
  { rewrite !Z.abs_mul. rewrite (Z.abs_eq 2), (Z.abs_eq P) by lia. ring. }
  assert (P * (unit_ + 1) <= P * (2 * Z.abs D)) by (apply Z.mul_le_mono_nonneg_l; lia).
  lia.
Qed.

Lemma formatNumber_accuracy (num unit_ : Z) (suffix : jsstring) :
  0 < unit_ -> unit_ < two53 -> unit_ <= num -> 120 * num <= two52 ->
  exists n,
    toFixed1 (div (of_Z num) (of_Z unit_)) ++ suffix = fixed1_digits n ++ suffix /\
    2 * Z.abs (unit_ * n - 10 * num) <= unit_.
Proof.
  intros HU HU' Hn Hn'.
  destruct (quotient_accuracy num unit_ HU HU') as (m & e & -> & H); [lia | lia |].
  exists (nearest_tenths m e). split; [reflexivity | exact H].
Qed.

End NumberMoreFacts.

Section NumberExtras.

Import Number VideoAPI.

Local Open Scope Z_scope.

(** X17.  For every integer from 1000 up to 10^13, what [formatNumber]
    prints before the suffix is a number of tenths [n] within half a tenth
    of the quotient by the threshold: the quotient rounded to one decimal,
    on a tie one of the two neighbours. *)
Theorem formatNumber_nearest_tenth :
  (forall num, 1000 <= num < 1000000 ->
     exists n, formatNumber num = fixed1_digits n ++ str "K" /\
               2 * Z.abs (1000 * n - 10 * num) <= 1000) /\
  (forall num, 1000000 <= num < 1000000000 ->
     exists n, formatNumber num = fixed1_digits n ++ str "M" /\
               2 * Z.abs (1000000 * n - 10 * num) <= 1000000) /\
  (forall num, 1000000000 <= num <= 10000000000000 ->
     exists n, formatNumber num = fixed1_digits n ++ str "B" /\
               2 * Z.abs (1000000000 * n - 10 * num) <= 1000000000).
Proof.
  split; [|split]; intros num H; unfold formatNumber.
  - destruct (Z.leb_spec 1000000000 num); [lia|].
    destruct (Z.leb_spec 1000000 num); [lia|].
    destruct (Z.leb_spec 1000 num); [|lia].
    apply formatNumber_accuracy; unfold two52, two53; lia.
  - destruct (Z.leb_spec 1000000000 num); [lia|].
    destruct (Z.leb_spec 1000000 num); [|lia].
    apply formatNumber_accuracy; unfold two52, two53; lia.
  - destruct (Z.leb_spec 1000000000 num); [|lia].
    apply formatNumber_accuracy; unfold two52, two53; lia.
Qed.

Lemma formatNumber_nearest_tenth_witness :
  exists n, formatNumber 123456 = fixed1_digits n ++ str "K" /\
            2 * Z.abs (1000 * n - 10 * 123456) <= 1000.
Proof.
  apply (proj1 formatNumber_nearest_tenth). lia.
Defined.

(** X18.  A count that is a whole number of tenths of the threshold is
    printed exactly, and the last fifty counts below 1e6 (and the last fifty
    thousand below 1e9) are printed as "1000.0K" (as "1000.0M"): the suffix
    follows the count, not the rounded value. *)
Theorem formatNumber_round_numbers :
  (forall k, 10 <= k < 10000 ->
     formatNumber (100 * k) = fixed1_digits k ++ str "K") /\
  (forall k, 10 <= k < 10000 ->
     formatNumber (100000 * k) = fixed1_digits k ++ str "M") /\
  (forall k, 10 <= k <= 100000 ->
     formatNumber (100000000 * k) = fixed1_digits k ++ str "B") /\
  (forall num, 999950 <= num < 1000000 -> formatNumber num = str "1000.0K") /\
  (forall num, 999950000 <= num < 1000000000 ->
     formatNumber num = str "1000.0M").
Proof.
  assert (A : forall num unit_ suffix n,
            0 < unit_ -> unit_ < two53 -> unit_ <= num -> 120 * num <= two52 ->
            2 * Z.abs (unit_ * n - 10 * num) < unit_ ->
            toFixed1 (div (of_Z num) (of_Z unit_)) ++ suffix =
              fixed1_digits n ++ suffix).
  { intros num unit_ suffix n H1 H2 H3 H4 Hn.
    destruct (formatNumber_accuracy num unit_ suffix H1 H2 H3 H4)
      as (n' & -> & Hn').
    replace n' with n; [reflexivity|]. nia. }
  split; [|split; [|split; [|split]]].
  - intros k H. unfold formatNumber.
    destruct (Z.leb_spec 1000000000 (100 * k)); [lia|].
    destruct (Z.leb_spec 1000000 (100 * k)); [lia|].
    destruct (Z.leb_spec 1000 (100 * k)); [|lia].
    apply A; unfold two52, two53; lia.
  - intros k H. unfold formatNumber.
    destruct (Z.leb_spec 1000000000 (100000 * k)); [lia|].
    destruct (Z.leb_spec 1000000 (100000 * k)); [|lia].
    apply A; unfold two52, two53; lia.
  - intros k H. unfold formatNumber.
    destruct (Z.leb_spec 1000000000 (100000000 * k)); [|lia].
    apply A; unfold two52, two53; lia.
  - intros num H.
    destruct (Z.eq_dec num 999950) as [->|N]; [vm_compute; reflexivity|].
    unfold formatNumber.
    destruct (Z.leb_spec 1000000000 num); [lia|].
    destruct (Z.leb_spec 1000000 num); [lia|].
    destruct (Z.leb_spec 1000 num); [|lia].
    rewrite (A num 1000 (str "K") 10000); unfold two52, two53; try lia.
    reflexivity.
  - intros num H.
    destruct (Z.eq_dec num 999950000) as [->|N]; [vm_compute; reflexivity|].
    unfold formatNumber.
    destruct (Z.leb_spec 1000000000 num); [lia|].
    destruct (Z.leb_spec 1000000 num); [|lia].
    rewrite (A num 1000000 (str "M") 10000); unfold two52, two53; try lia.
    reflexivity.
Qed.

Lemma formatNumber_round_numbers_witness :
  formatNumber 45600 = str "45.6K" /\
  formatNumber 999983 = str "1000.0K".
Proof.
  split.
  - apply (proj1 formatNumber_round_numbers 456). lia.
  - apply (proj1 (proj2 (proj2 (proj2 formatNumber_round_numbers)))). lia.
Defined.

End NumberExtras.

(* ------------------------------------------------------------------ *)
(** ** Sessions *)

Section SessionFacts.

Import VideoAPI VideoDownloadApp Session.


End SessionFacts.

Section SessionExtras.

Import VideoAPI VideoDownloadApp Session.



End SessionExtras.

Section LinkExtras.

Import VideoAPI VideoDownloadApp.



End LinkExtras.
